(** * weed/mount: CopyFileRange

    A shallow embedding of [func (wfs *WFS) CopyFileRange] from
    [weed/mount/weedfs_file_copy_range.go], and the properties of the
    range-copy operation established on it.

    Layout of the development:
    - machine integers ([uint64], [int64], [uint32]) as [Z] with explicit
      wrap-around;
    - the mount state: a handle registry, a heap of [*FileHandle] objects
      and a heap of [*Entry] objects (both are pointers in the Go code, so
      two handles can alias);
    - the collaborators that the operation calls but that live in other
      files (chunk reads, dirty pages, write-pattern monitor, MIME sniffer)
      as a type class;
    - [CopyFileRange] itself, producing the FUSE status, the byte count, the
      state after the call and the sequence of lock events;
    - a concrete store for the collaborators, used for scenarios. *)

From Stdlib Require Import ZArith List String Bool Lia.
From Stdlib.Strings Require Import Byte.
From stdpp Require Import base option list gmap strings.

Open Scope Z_scope.

(** ** Machine integers *)

Module Int.

Definition wrap_u64 (x : Z) : Z := x mod 2 ^ 64.
Definition wrap_u32 (x : Z) : Z := x mod 2 ^ 32.
(** Conversion to [int64], two's complement. Go's [int] is taken to be 64
    bits wide, as on every platform the mount runs on. *)
Definition wrap_i64 (x : Z) : Z := (x + 2 ^ 63) mod 2 ^ 64 - 2 ^ 63.

End Int.
Import Int.

(** ** Data model *)

Definition FileHandleId := Z.
(** Addresses of [*FileHandle] and of [*filer_pb.Entry] objects. *)
Definition haddr := positive.
Definition eaddr := positive.

(** [fuse.CopyFileRangeIn]; every field is a [uint64]. *)
Record CopyFileRangeIn := {
  FhIn : Z;
  OffIn : Z;
  FhOut : Z;
  OffOut : Z;
  Len : Z;
  Flags : Z;
}.

(** [fuse.Status] values returned by the operation. *)
Inductive Status := OK | EINVAL | EBADF | ENOENT | EISDIR | EIO.

(** The error result of [readFromChunks]: [nil], [io.EOF], or anything
    else. *)
Inductive ReadErr := ErrNil | ErrEOF | ErrOther.

(** The fields of an entry that the operation reads or writes:
    [entry.IsDirectory], [entry.Content], [entry.Attributes.FileSize]. *)
Record Entry := {
  IsDirectory : bool;
  Content : option (list byte);
  FileSize : Z;
}.

(** [fh.dirtyPages]: the page writer with its pattern monitor. The two
    components are kept abstract ([WP], [DP]); their operations are in
    [Collaborators] below. *)
Record PageWriter (WP DP : Type) := {
  writerPattern : WP;
  pages : DP;
}.
Arguments writerPattern {WP DP} _.
Arguments pages {WP DP} _.

Record FileHandle (WP DP : Type) := {
  fh : FileHandleId;
  inode : Z;
  entry : option eaddr;
  dirtyPages : PageWriter WP DP;
  dirtyMetadata : bool;
  contentType : string;
}.
Arguments fh {WP DP} _.
Arguments inode {WP DP} _.
Arguments entry {WP DP} _.
Arguments dirtyPages {WP DP} _.
Arguments dirtyMetadata {WP DP} _.
Arguments contentType {WP DP} _.

(** The part of [*WFS] the operation can reach. [fhmap] is the registry
    behind [wfs.GetHandle]; the two heaps hold the objects that the Go
    pointers refer to. A pointer outside its heap is read as [nil]: Go has
    no dangling pointers, so on the states of the program the two agree. *)
Record WFS (WP DP : Type) := {
  fhmap : gmap Z haddr;
  handles : gmap haddr (FileHandle WP DP);
  entries : gmap eaddr Entry;
}.
Arguments fhmap {WP DP} _.
Arguments handles {WP DP} _.
Arguments entries {WP DP} _.

(** ** Locks and events *)

Inductive LockId :=
| HandleLock (p : haddr)                 (* fh.Lock / fh.Unlock *)
| EntryLock (p : haddr)                  (* fh.entryLock *)
| RangeLock (p : haddr) (off len : Z).   (* fh.lockForRead / unlockForRead *)

Inductive Event :=
| EvGetHandle (id : FileHandleId)
| EvLock (l : LockId)
| EvUnlock (l : LockId).

(** What an invocation leaves behind: a returned pair with the state after
    the call, or a run-time panic (nil dereference, a length that [make]
    refuses, bad slice bounds). *)
Inductive Outcome (WP DP : Type) :=
| Returned (written : Z) (code : Status) (wfs' : WFS WP DP)
| Panicked.
Arguments Returned {WP DP} _ _ _.
Arguments Panicked {WP DP}.

Record Run (WP DP : Type) := {
  trace : list Event;
  outcome : Outcome WP DP;
}.
Arguments trace {WP DP} _.
Arguments outcome {WP DP} _.

(** The events so far and the stack of deferred unlocks. *)
Record Frame := {
  events : list Event;
  deferred : list Event;
}.

Definition frame0 : Frame := {| events := []; deferred := [] |}.

Definition emit (ev : Event) (fr : Frame) : Frame :=
  {| events := events fr ++ [ev]; deferred := deferred fr |}.

(** [l.Lock(); defer l.Unlock()] *)
Definition acquire (l : LockId) (fr : Frame) : Frame :=
  {| events := events fr ++ [EvLock l]; deferred := EvUnlock l :: deferred fr |}.

(** Leaving the function runs the deferred calls, last one first. *)
Definition leave {WP DP} (fr : Frame) (o : Outcome WP DP) : Run WP DP :=
  {| trace := events fr ++ deferred fr; outcome := o |}.

(** ** Collaborators

    Methods that [CopyFileRange] calls and whose bodies are in other files
    of the package. Buffers are Go slices filled in place; here a call
    returns the buffer after the call. The two reads only fill the buffer:
    they leave the handles and entries of the mount as they are. *)

Class Collaborators (WP DP : Type) := {
  (* fh.readFromChunks(buff, offset) (totalRead, err) *)
  readFromChunks : WFS WP DP -> haddr -> list byte -> Z -> list byte * Z * ReadErr;
  (* fh.readFromDirtyPages(buff, offset) maxStop *)
  readFromDirtyPages : WFS WP DP -> haddr -> list byte -> Z -> list byte * Z;
  (* writerPattern.MonitorWriteAt(offset, size) *)
  MonitorWriteAt : WP -> Z -> Z -> WP;
  (* writerPattern.IsSequentialMode() *)
  IsSequentialMode : WP -> bool;
  (* dirtyPages.AddPage(offset, data, isSequential) *)
  AddPage : DP -> Z -> list byte -> bool -> DP;
  (* http.DetectContentType(data) *)
  DetectContentType : list byte -> string;
}.

(** ** The operation *)

Section CopyFileRange.
Context {WP DP : Type} {collab : Collaborators WP DP}.

Local Abbreviation WFS := (WFS WP DP).
Local Abbreviation FileHandle := (FileHandle WP DP).

(** [wfs.GetHandle(id)]: the handle object registered under [id], with its
    address. *)
Definition GetHandle (wfs : WFS) (id : FileHandleId) : option (haddr * FileHandle) :=
  match fhmap wfs !! id with
  | None => None
  | Some p => match handles wfs !! p with
              | None => None
              | Some h => Some (p, h)
              end
  end.

(** [fh.entry], dereferenced. *)
Definition entryOf (wfs : WFS) (h : FileHandle) : option (eaddr * Entry) :=
  match entry h with
  | None => None
  | Some e => match entries wfs !! e with
              | None => None
              | Some x => Some (e, x)
              end
  end.

(** Lines 69-72: the overlap test, in [uint64] arithmetic. *)
Definition offInEnd (inp : CopyFileRangeIn) : Z := wrap_u64 (OffIn inp + Len inp - 1).
Definition offOutEnd (inp : CopyFileRangeIn) : Z := wrap_u64 (OffOut inp + Len inp - 1).

Definition overlapping (hIn hOut : FileHandle) (inp : CopyFileRangeIn) : bool :=
  (inode hIn =? inode hOut) && (OffIn inp <=? offOutEnd inp) && (offInEnd inp >=? OffOut inp).

(** Line 88: [make([]byte, n)] panics ("makeslice: len out of range") when
    [n] is negative or above the runtime's [maxAlloc], which is [2^48] bytes
    on the 64-bit platforms. Running out of memory below that limit is a
    fatal error of the runtime and not part of this model. *)
Definition maxAlloc : Z := 2 ^ 48.

Definition makePanics (n : Z) : bool := (n <? 0) || (maxAlloc <? n).

(** Lines 88-96: read the source range into a fresh buffer. *)
Definition readSource (wfs : WFS) (pIn : haddr) (inp : CopyFileRangeIn)
  : list byte * Z * ReadErr :=
  let off := wrap_i64 (OffIn inp) in
  let data0 := replicate (Z.to_nat (wrap_i64 (Len inp))) x00 in
  let '(data1, totalRead0, err) := readFromChunks wfs pIn data0 off in
  match err with
  | ErrOther => (data1, totalRead0, ErrOther)
  | _ =>
      let '(data2, maxStop) := readFromDirtyPages wfs pIn data1 off in
      (data2, Z.max (wrap_i64 (maxStop - off)) totalRead0, ErrNil)
  end.

(** Lines 107-111: the destination handle and its entry after the write. *)
Definition writeEntry (entOut : Entry) (inp : CopyFileRangeIn) (totalRead : Z) : Entry :=
  {| IsDirectory := IsDirectory entOut;
     Content := None;
     FileSize := wrap_u64 (Z.max (wrap_i64 (wrap_i64 (OffOut inp) + totalRead))
                                 (wrap_i64 (FileSize entOut))) |}.

Definition writePages (pw : PageWriter WP DP) (inp : CopyFileRangeIn) (data : list byte)
  : PageWriter WP DP :=
  let wp' := MonitorWriteAt (writerPattern pw) (wrap_i64 (OffOut inp)) (wrap_i64 (Len inp)) in
  {| writerPattern := wp';
     pages := AddPage (pages pw) (wrap_i64 (OffOut inp)) data (IsSequentialMode wp') |}.

Definition writeHandle (hOut : FileHandle) (inp : CopyFileRangeIn) (data : list byte)
    (ct : string) : FileHandle :=
  {| fh := fh hOut;
     inode := inode hOut;
     entry := entry hOut;
     dirtyPages := writePages (dirtyPages hOut) inp data;
     dirtyMetadata := true;
     contentType := ct |}.

(** Lines 115-117: [None] when the slice expression [data[:k]] is out of
    range; the capacity of [data] is its length. *)
Definition sniffed (hOut : FileHandle) (inp : CopyFileRangeIn) (data : list byte)
    (totalRead : Z) : option string :=
  if (0 <? wrap_u32 totalRead) && (OffOut inp <=? 512) then
    let k := Z.min totalRead 512 - 1 in
    if (k <? 0) || (Z.of_nat (length data) <? k) then None
    else Some (DetectContentType (take (Z.to_nat k) data))
  else Some (contentType hOut).

Definition writeState (wfs : WFS) (pOut : haddr) (eOut : eaddr)
    (hOut' : FileHandle) (entOut' : Entry) : WFS :=
  {| fhmap := fhmap wfs;
     handles := <[pOut := hOut']> (handles wfs);
     entries := <[eOut := entOut']> (entries wfs) |}.

Definition CopyFileRange (wfs : WFS) (inp : CopyFileRangeIn) : Run WP DP :=
  (* 32 *)
  if negb (Flags inp =? 0) then leave frame0 (Returned 0 EINVAL wfs) else
  (* 37 *)
  let fr := emit (EvGetHandle (FhOut inp)) frame0 in
  match GetHandle wfs (FhOut inp) with
  | None => leave fr (Returned 0 EBADF wfs)
  | Some (pOut, hOut) =>
  (* 41 *)
  let fr := emit (EvGetHandle (FhIn inp)) fr in
  match GetHandle wfs (FhIn inp) with
  | None => leave fr (Returned 0 EBADF wfs)
  | Some (pIn, hIn) =>
  (* 47-50 *)
  let fr := acquire (EntryLock pOut) (acquire (HandleLock pOut) fr) in
  (* 52 *)
  match entryOf wfs hOut with
  | None => leave fr (Returned 0 ENOENT wfs)
  | Some (eOut, entOut) =>
  (* 56-61 *)
  let fr := if negb (fh hIn =? fh hOut)
            then acquire (EntryLock pIn) (acquire (HandleLock pIn) fr)
            else fr in
  (* 64: fhIn.entry is dereferenced first *)
  match entryOf wfs hIn with
  | None => leave fr Panicked
  | Some (_, entIn) =>
  if IsDirectory entIn || IsDirectory entOut then leave fr (Returned 0 EISDIR wfs) else
  (* 69-74 *)
  if overlapping hIn hOut inp then leave fr (Returned 0 EINVAL wfs) else
  (* 85-86 *)
  let fr := acquire (RangeLock pIn (wrap_i64 (OffIn inp)) (wrap_i64 (Len inp))) fr in
  (* 88: make panics on a negative or too large length *)
  if makePanics (wrap_i64 (Len inp)) then leave fr Panicked else
  (* 89-96 *)
  let '(data, totalRead, err) := readSource wfs pIn inp in
  match err with
  | ErrOther => leave fr (Returned 0 EIO wfs)
  | _ =>
  (* 102 *)
  if totalRead =? 0 then leave fr (Returned 0 OK wfs) else
  (* 107-117 *)
  match sniffed hOut inp data totalRead with
  | None => leave fr Panicked
  | Some ct =>
      leave fr (Returned (wrap_u32 totalRead) OK
                  (writeState wfs pOut eOut (writeHandle hOut inp data ct)
                     (writeEntry entOut inp totalRead)))
  end
  end
  end
  end
  end
  end.

(** ** Vocabulary for the statements *)

(** The two endpoints of a request once resolved: the handle objects with
    their addresses and the entries behind them. *)
Record Endpoints := {
  pOut : haddr;
  hOut : FileHandle;
  eOut : eaddr;
  entOut : Entry;
  pIn : haddr;
  hIn : FileHandle;
  entIn : Entry;
}.

(** The request passes flag, handle, entry and directory validation
    (lines 32-66), with endpoints [ep]. *)
Record Validated (wfs : WFS) (inp : CopyFileRangeIn) (ep : Endpoints) : Prop := {
  v_flags : Flags inp = 0;
  v_out : GetHandle wfs (FhOut inp) = Some (pOut ep, hOut ep);
  v_in : GetHandle wfs (FhIn inp) = Some (pIn ep, hIn ep);
  v_entOut : entryOf wfs (hOut ep) = Some (eOut ep, entOut ep);
  v_entIn : snd <$> entryOf wfs (hIn ep) = Some (entIn ep);
  v_fileIn : IsDirectory (entIn ep) = false;
  v_fileOut : IsDirectory (entOut ep) = false;
}.

(** Modelled from the spec: the handle registry behind [wfs.GetHandle] (in
    another file of the package) is a lookup of a handle by its identifier;
    the handle object it returns for [id] is the one that carries [id] in
    its [fh] field. *)
Definition Keyed (wfs : WFS) (id : FileHandleId) : Prop :=
  forall (p : haddr) (h : FileHandle), GetHandle wfs id = Some (p, h) -> fh h = id.

(** The buffer allocated at line 88. *)
Definition freshBuffer (inp : CopyFileRangeIn) : list byte :=
  replicate (Z.to_nat (wrap_i64 (Len inp))) x00.

(** The number of bytes the merged source read of a request produces. *)
Definition sourceRead (wfs : WFS) (inp : CopyFileRangeIn) : Z :=
  match GetHandle wfs (FhIn inp) with
  | Some (pIn, _) => (readSource wfs pIn inp).1.2
  | None => 0
  end.

(** The destination handle object and its entry, as a request sees them. *)
Definition destHandle (wfs : WFS) (inp : CopyFileRangeIn) : option FileHandle :=
  snd <$> GetHandle wfs (FhOut inp).

Definition destEntry (wfs : WFS) (inp : CopyFileRangeIn) : option Entry :=
  match GetHandle wfs (FhOut inp) with
  | Some (_, h) => snd <$> entryOf wfs h
  | None => None
  end.

(** The returned pair and the state after the call, when the invocation
    returned. *)
Definition result (r : Run WP DP) : option (Z * Status) :=
  match outcome r with
  | Returned w c _ => Some (w, c)
  | Panicked => None
  end.

Definition after (r : Run WP DP) : option WFS :=
  match outcome r with
  | Returned _ _ s => Some s
  | Panicked => None
  end.

(** Locks taken and locks released, in the order of the trace. *)
Definition acquired (t : list Event) : list LockId :=
  omap (fun ev => match ev with EvLock l => Some l | _ => None end) t.

Definition released (t : list Event) : list LockId :=
  omap (fun ev => match ev with EvUnlock l => Some l | _ => None end) t.

(** The closed intervals [[a, a + len - 1]] and [[b, b + len - 1]] of exact
    integers have a point in common. *)
Definition intersect (a b len : Z) : Prop :=
  exists x, a <= x <= a + len - 1 /\ b <= x <= b + len - 1.

End CopyFileRange.

(** ** A concrete store for the collaborators

    The bodies of [readFromChunks], [readFromDirtyPages], [AddPage] and of
    the pattern monitor are not part of the file verified here. The module
    below gives them the behaviour that the design document of the mount
    describes, so that byte-level scenarios can be run. *)

Module Store.

(** Modelled from the spec: the DirtyPageBuffer ([page_writer], not in this
    file) is a collection of byte-range records [{offset, length, data}];
    the most recent write wins on overlapping bytes. The list is kept
    newest first. *)
Record Page := {
  pageOffset : Z;
  pageData : list byte;
}.

Definition DirtyPageBuffer := list Page.

Definition pageStop (pg : Page) : Z := pageOffset pg + Z.of_nat (length (pageData pg)).

(** Modelled from the spec: [AddPage(offset, data, sequentialHint)] inserts
    a byte range; the hint only chooses a storage granularity and never
    changes what later reads return. *)
Definition addPage (dp : DirtyPageBuffer) (off : Z) (data : list byte) (hint : bool)
  : DirtyPageBuffer :=
  {| pageOffset := off; pageData := data |} :: dp.

(** Modelled from the spec: one record of the DirtyPageBuffer copied over
    the window [[off, off + length buf)] of the buffer; [maxStop] follows the
    highest offset reached. *)
Definition overlayPage (off : Z) (pg : Page) (acc : list byte * Z) : list byte * Z :=
  let '(buf, maxStop) := acc in
  let start := Z.max off (pageOffset pg) in
  let stop := Z.min (off + Z.of_nat (length buf)) (pageStop pg) in
  if start <? stop then
    (take (Z.to_nat (start - off)) buf
       ++ take (Z.to_nat (stop - start)) (drop (Z.to_nat (start - pageOffset pg)) (pageData pg))
       ++ drop (Z.to_nat (stop - off)) buf,
     Z.max maxStop stop)
  else acc.

(** Modelled from the spec: the overlay read of the DirtyPageBuffer
    ([readFromDirtyPages], not in this file) writes the buffered bytes over
    what the chunk read produced, older records first so that the most
    recent write wins, and returns the highest offset covered (the start
    offset when no record reaches the window). *)
Definition readDirtyDataAt (dp : DirtyPageBuffer) (buf : list byte) (off : Z)
  : list byte * Z :=
  foldr (overlayPage off) (buf, off) dp.

(** Modelled from the spec: the chunk store (committed remote data, not in
    this file), keyed by object identity. An object is either readable, with
    its committed bytes, or cannot be reached (a transport or storage
    failure). *)
Inductive ChunkObject :=
| Committed (bs : list byte)
| Unreachable.

Definition ChunkStore := gmap Z ChunkObject.

(** Modelled from the spec: [ChunkStore.ReadAt(objectIdentity, buffer,
    offset) -> (bytesRead, error|end-of-data)]. Running out of committed
    bytes before the buffer is full is the benign end-of-data; an
    unreachable object or a negative offset is an error. *)
Definition readAt (cs : ChunkStore) (obj : Z) (buf : list byte) (off : Z)
  : list byte * Z * ReadErr :=
  match cs !! obj with
  | None => (buf, 0, ErrEOF)
  | Some Unreachable => (buf, 0, ErrOther)
  | Some (Committed bs) =>
      if off <? 0 then (buf, 0, ErrOther) else
      let avail := drop (Z.to_nat off) bs in
      let n := Nat.min (length buf) (length avail) in
      (take n avail ++ drop n buf, Z.of_nat n,
       if (n <? length buf)%nat then ErrEOF else ErrNil)
  end.

(** Modelled from the spec: the WriterPatternMonitor ([page_writer], not in
    this file): last write offset, last write length and a streak counter.
    A write that continues the previous one extends the streak; any other
    write resets it. *)
Record Monitor := {
  lastOffset : Z;
  lastLength : Z;
  streak : Z;
}.

(** Modelled from the spec: [MonitorWriteAt(offset, length)] updates the
    streak from the offset of the new write relative to the previous one. *)
Definition monitorWriteAt (m : Monitor) (off len : Z) : Monitor :=
  {| lastOffset := off;
     lastLength := len;
     streak := if off =? lastOffset m + lastLength m then streak m + 1 else 0 |}.

(** Modelled from the spec: [IsSequentialMode()] reports the current
    classification. *)
Definition isSequentialMode (m : Monitor) : bool := 0 <? streak m.

Definition monitor0 : Monitor := {| lastOffset := 0; lastLength := 0; streak := 0 |}.

Abbreviation WFS := (WFS Monitor DirtyPageBuffer).
Abbreviation FileHandle := (FileHandle Monitor DirtyPageBuffer).

Definition handleAt (wfs : WFS) (p : haddr) : option FileHandle := handles wfs !! p.

(** The collaborators over a chunk store [cs]; the MIME sniffer
    ([http.DetectContentType], Go's standard library) stays a parameter. *)
Definition collaborators (cs : ChunkStore) (sniff : list byte -> string)
  : Collaborators Monitor DirtyPageBuffer :=
  {| readFromChunks := fun wfs p buf off =>
       match handleAt wfs p with
       | Some h => readAt cs (inode h) buf off
       | None => (buf, 0, ErrOther)
       end;
     readFromDirtyPages := fun wfs p buf off =>
       match handleAt wfs p with
       | Some h => readDirtyDataAt (pages (dirtyPages h)) buf off
       | None => (buf, off)
       end;
     MonitorWriteAt := monitorWriteAt;
     IsSequentialMode := isSequentialMode;
     AddPage := addPage;
     DetectContentType := sniff |}.

Definition copyFileRange (cs : ChunkStore) (sniff : list byte -> string)
    (wfs : WFS) (inp : CopyFileRangeIn) : Run Monitor DirtyPageBuffer :=
  @CopyFileRange _ _ (collaborators cs sniff) wfs inp.

(** The merged view of an object, byte by byte: the newest dirty record
    covering the position, else the committed byte. *)
Definition covers (pg : Page) (pos : Z) : bool :=
  (pageOffset pg <=? pos) && (pos <? pageStop pg).

Fixpoint dirtyByte (dp : DirtyPageBuffer) (pos : Z) : option byte :=
  match dp with
  | [] => None
  | pg :: rest =>
      if covers pg pos then pageData pg !! Z.to_nat (pos - pageOffset pg)
      else dirtyByte rest pos
  end.

Definition committedByte (cs : ChunkStore) (obj : Z) (pos : Z) : option byte :=
  match cs !! obj with
  | Some (Committed bs) => if pos <? 0 then None else bs !! Z.to_nat pos
  | _ => None
  end.

Definition mergedByte (cs : ChunkStore) (obj : Z) (dp : DirtyPageBuffer) (pos : Z)
  : option byte :=
  match dirtyByte dp pos with
  | Some b => Some b
  | None => committedByte cs obj pos
  end.

(** The merged view through the handle registered under [id]. *)
Definition view (cs : ChunkStore) (wfs : WFS) (id : FileHandleId) (pos : Z) : option byte :=
  match GetHandle wfs id with
  | Some (_, h) => mergedByte cs (inode h) (pages (dirtyPages h)) pos
  | None => None
  end.

(** A read of [len] bytes at [off] through the handle registered under
    [id]: chunk read, then dirty overlay, as [CopyFileRange] does it on its
    source. *)
Definition readHandle (cs : ChunkStore) (wfs : WFS) (id : FileHandleId) (off : Z) (len : nat)
  : list byte :=
  match GetHandle wfs id with
  | Some (_, h) =>
      let '(buf, _, _) := readAt cs (inode h) (replicate len x00) off in
      (readDirtyDataAt (pages (dirtyPages h)) buf off).1
  | None => []
  end.

(** The entry behind the handle registered under [id]. *)
Definition entryAt (wfs : WFS) (id : FileHandleId) : option Entry :=
  match GetHandle wfs id with
  | Some (_, h) => snd <$> entryOf wfs h
  | None => None
  end.

End Store.

(** ** Concrete states and requests *)

Module Scenario.
Import Store.

Definition bytes (s : string) : list byte := list_byte_of_string s.

Definition fileEntry (size : Z) : Entry :=
  {| IsDirectory := false; Content := None; FileSize := size |}.

Definition openHandle (id ino : Z) (e : option eaddr) (dp : DirtyPageBuffer) : FileHandle :=
  {| fh := id;
     inode := ino;
     entry := e;
     dirtyPages := {| writerPattern := monitor0; pages := dp |};
     dirtyMetadata := false;
     contentType := "" |}.

(** A sniffer that knows nothing; for scenarios where the MIME type plays
    no part. *)
Definition sniffNothing (data : list byte) : string := "application/octet-stream".

(** A sniffer that shows what it was given. *)
Definition sniffEcho (data : list byte) : string := string_of_list_byte data.

(** Object 1 holds ["0123456789"]; its handle (id 10) has the dirty record
    ["XY"] at offsets 3-4. Handle 20 is a fresh, empty object 2. *)
Definition csDigits : ChunkStore := {[ 1 := Committed (bytes "0123456789") ]}.

Definition hDigits : FileHandle :=
  openHandle 10 1 (Some 1%positive) [ {| pageOffset := 3; pageData := bytes "XY" |} ].
Definition hFresh : FileHandle := openHandle 20 2 (Some 2%positive) [].

Definition wfsDigits : WFS :=
  {| fhmap := {[ 10 := 1%positive; 20 := 2%positive ]};
     handles := {[ 1%positive := hDigits; 2%positive := hFresh ]};
     entries := {[ 1%positive := fileEntry 10; 2%positive := fileEntry 0 ]} |}.

Definition request (fhIn offIn fhOut offOut len : Z) : CopyFileRangeIn :=
  {| FhIn := fhIn; OffIn := offIn; FhOut := fhOut; OffOut := offOut; Len := len; Flags := 0 |}.

(** Copy [[0,10)] of handle 10 to offset 0 of handle 20. *)
Definition reqDigits : CopyFileRangeIn := request 10 0 20 0 10.

(** Twelve bytes asked of the ten that object 1 has. *)
Definition reqDigitsLong : CopyFileRangeIn := request 10 0 20 0 12.

Definition epDigits : @Endpoints Monitor DirtyPageBuffer :=
  {| pOut := 2%positive; hOut := hFresh; eOut := 2%positive; entOut := fileEntry 0;
     pIn := 1%positive; hIn := hDigits; entIn := fileEntry 10 |}.

(** The state that this copy leaves. *)
Definition wfsDigitsCopied : WFS :=
  default wfsDigits (after (copyFileRange csDigits sniffNothing wfsDigits reqDigits)).

(** The same, with a flag set. *)
Definition reqFlagged : CopyFileRangeIn :=
  {| FhIn := 10; OffIn := 0; FhOut := 20; OffOut := 0; Len := 10; Flags := 1 |}.

(** An empty range of handle 10, copied within the same object from offset
    0 to offset 100. *)
Definition reqEmptySame : CopyFileRangeIn := request 10 0 10 100 0.

(** Copy from the fresh, empty handle 20 into handle 10. *)
Definition reqFromFresh : CopyFileRangeIn := request 20 0 10 0 10.

Definition epFromFresh : @Endpoints Monitor DirtyPageBuffer :=
  {| pOut := 1%positive; hOut := hDigits; eOut := 1%positive; entOut := fileEntry 10;
     pIn := 2%positive; hIn := hFresh; entIn := fileEntry 0 |}.

(** The chunk store cannot reach object 1. *)
Definition csDown : ChunkStore := {[ 1 := Unreachable ]}.

(** The destination entry already records a size of [2^63] bytes. *)
Definition wfsHuge : WFS :=
  {| fhmap := fhmap wfsDigits;
     handles := handles wfsDigits;
     entries := {[ 1%positive := fileEntry 10; 2%positive := fileEntry (2 ^ 63) ]} |}.

Definition reqOneByte : CopyFileRangeIn := request 10 0 20 0 1.

(** Object 1 holds the three bytes ["abc"], object 2 holds
    ["0123456789"]; five bytes are requested from object 1. *)
Definition csShort : ChunkStore :=
  {[ 1 := Committed (bytes "abc"); 2 := Committed (bytes "0123456789") ]}.

Definition wfsShort : WFS :=
  {| fhmap := {[ 10 := 1%positive; 20 := 2%positive ]};
     handles := {[ 1%positive := openHandle 10 1 (Some 1%positive) [];
                   2%positive := openHandle 20 2 (Some 2%positive) [] ]};
     entries := {[ 1%positive := fileEntry 3; 2%positive := fileEntry 10 ]} |}.

Definition reqShort : CopyFileRangeIn := request 10 0 20 0 5.

(** Object 1 holds the five bytes of a PDF signature. *)
Definition csPdf : ChunkStore := {[ 1 := Committed (bytes "%PDF-") ]}.

Definition wfsPdf : WFS :=
  {| fhmap := {[ 10 := 1%positive; 20 := 2%positive ]};
     handles := {[ 1%positive := openHandle 10 1 (Some 1%positive) [];
                   2%positive := openHandle 20 2 (Some 2%positive) [] ]};
     entries := {[ 1%positive := fileEntry 5; 2%positive := fileEntry 0 ]} |}.

Definition reqPdf : CopyFileRangeIn := request 10 0 20 0 5.

(** The same five bytes copied to offset 600. *)
Definition reqPdfFar : CopyFileRangeIn := request 10 0 20 600 5.

(** The source handle (id 10) has no entry. *)
Definition wfsNoSourceEntry : WFS :=
  {| fhmap := {[ 10 := 1%positive; 20 := 2%positive ]};
     handles := {[ 1%positive := openHandle 10 1 None [];
                   2%positive := hFresh ]};
     entries := {[ 2%positive := fileEntry 0 ]} |}.

(** The id 99 is not registered. *)
Definition reqNoDestination : CopyFileRangeIn := request 10 0 99 0 10.
Definition reqNoSource : CopyFileRangeIn := request 99 0 20 0 10.

(** The destination entry is a directory. *)
Definition wfsDirectory : WFS :=
  {| fhmap := fhmap wfsDigits;
     handles := handles wfsDigits;
     entries := {[ 1%positive := fileEntry 10;
                   2%positive := {| IsDirectory := true; Content := None; FileSize := 0 |} ]} |}.

(** Bytes [[0,10)] of handle 10 copied onto [[5,15)] of the same handle. *)
Definition reqOverlap : CopyFileRangeIn := request 10 0 10 5 10.

Definition epSame : @Endpoints Monitor DirtyPageBuffer :=
  {| pOut := 1%positive; hOut := hDigits; eOut := 1%positive; entOut := fileEntry 10;
     pIn := 1%positive; hIn := hDigits; entIn := fileEntry 10 |}.

(** A length of [2^62] bytes. *)
Definition reqTooLarge : CopyFileRangeIn := request 10 0 20 0 (2 ^ 62).

(** A length of [2^63] bytes. *)
Definition reqHugeLength : CopyFileRangeIn := request 10 0 20 0 (2 ^ 63).

(** A third handle object (id 30) that shares the entry of handle 20. *)
Definition hSharing : FileHandle := openHandle 30 2 (Some 2%positive) [].

Definition wfsShared : WFS :=
  {| fhmap := {[ 10 := 1%positive; 20 := 2%positive; 30 := 3%positive ]};
     handles := {[ 1%positive := hDigits; 2%positive := hFresh; 3%positive := hSharing ]};
     entries := entries wfsDigits |}.

Definition wfsSharedCopied : WFS :=
  default wfsShared (after (copyFileRange csDigits sniffNothing wfsShared reqDigits)).

Definition wfsPdfFarCopied : WFS :=
  default wfsPdf (after (copyFileRange csPdf sniffNothing wfsPdf reqPdfFar)).

Definition wfsDigitsLongCopied : WFS :=
  default wfsDigits (after (copyFileRange csDigits sniffNothing wfsDigits reqDigitsLong)).

End Scenario.

(** * Properties *)

(** ** Machine integers *)

Lemma wrap_i64_id (x : Z) : - 2 ^ 63 <= x < 2 ^ 63 -> wrap_i64 x = x.
Proof. intros Hx. unfold wrap_i64. rewrite Z.mod_small; lia. Qed.

Lemma wrap_u64_id (x : Z) : 0 <= x < 2 ^ 64 -> wrap_u64 x = x.
Proof. intros Hx. unfold wrap_u64. apply Z.mod_small; lia. Qed.

Lemma wrap_u32_id (x : Z) : 0 <= x < 2 ^ 32 -> wrap_u32 x = x.
Proof. intros Hx. unfold wrap_u32. apply Z.mod_small; lia. Qed.

Lemma wrap_u32_le (x : Z) : 0 <= x -> wrap_u32 x <= x.
Proof. intros Hx. unfold wrap_u32. apply Z.mod_le; lia. Qed.

Lemma wrap_i64_bounds (x : Z) : - 2 ^ 63 <= wrap_i64 x < 2 ^ 63.
Proof.
  unfold wrap_i64.
  pose proof (Z.mod_pos_bound (x + 2 ^ 63) (2 ^ 64)). lia.
Qed.

Lemma makePanics_false (n : Z) : makePanics n = false <-> 0 <= n <= maxAlloc.
Proof.
  unfold makePanics. rewrite orb_false_iff, !Z.ltb_ge. lia.
Qed.

Lemma makePanics_negative (n : Z) : n < 0 -> makePanics n = true.
Proof.
  intros Hn. unfold makePanics. rewrite (proj2 (Z.ltb_lt _ _) Hn). reflexivity.
Qed.

(** ** The operation, path by path *)

Section Paths.
Context {WP DP : Type} {collab : Collaborators WP DP}.

Implicit Types (wfs : WFS WP DP) (inp : CopyFileRangeIn) (ep : @Endpoints WP DP).

(** What is left of the function once validation has passed. *)
Lemma outcome_validated wfs inp ep :
  Validated wfs inp ep ->
  outcome (CopyFileRange wfs inp) =
    if overlapping (hIn ep) (hOut ep) inp then Returned 0 EINVAL wfs
    else if makePanics (wrap_i64 (Len inp)) then Panicked
    else let '(data, totalRead, err) := readSource wfs (pIn ep) inp in
         match err with
         | ErrOther => Returned 0 EIO wfs
         | _ =>
             if totalRead =? 0 then Returned 0 OK wfs
             else match sniffed (hOut ep) inp data totalRead with
                  | None => Panicked
                  | Some ct =>
                      Returned (wrap_u32 totalRead) OK
                        (writeState wfs (pOut ep) (eOut ep)
                           (writeHandle (hOut ep) inp data ct)
                           (writeEntry (entOut ep) inp totalRead))
                  end
         end.
Proof.
  intros [Hf Ho Hi Heo Hei Hdi Hdo]. unfold CopyFileRange.
  rewrite Hf, Ho, Hi, Heo. cbn [Z.eqb negb].
  destruct (entryOf wfs (hIn ep)) as [[eIn x] |]; [| discriminate].
  cbn in Hei. injection Hei as ->. rewrite Hdi, Hdo. cbn [orb].
  destruct (overlapping (hIn ep) (hOut ep) inp); [reflexivity |].
  destruct (makePanics (wrap_i64 (Len inp))); [reflexivity |].
  destruct (readSource wfs (pIn ep) inp) as [[data n] err].
  destruct err; try reflexivity;
    (destruct (n =? 0); [reflexivity |]);
    destruct (sniffed (hOut ep) inp data n); reflexivity.
Qed.

(** [readSource] never hands the benign end-of-data on. *)
Lemma readSource_err wfs (p : haddr) inp :
  (readSource wfs p inp).2 = ErrNil \/ (readSource wfs p inp).2 = ErrOther.
Proof.
  unfold readSource.
  destruct (readFromChunks _ _ _ _) as [[d n] err].
  destruct err; try (right; reflexivity);
    destruct (readFromDirtyPages _ _ _ _); left; reflexivity.
Qed.

Lemma readSource_chunk_error wfs (p : haddr) inp d n :
  readFromChunks wfs p (freshBuffer inp) (wrap_i64 (OffIn inp)) = (d, n, ErrOther) ->
  readSource wfs p inp = (d, n, ErrOther).
Proof. intros Hr. unfold readSource. fold (freshBuffer inp). rewrite Hr. reflexivity. Qed.

(** A successful return, read backwards. *)
Lemma outcome_OK_inv wfs inp w wfs' :
  outcome (CopyFileRange wfs inp) = Returned w OK wfs' ->
  exists ep data n,
    Validated wfs inp ep /\
    overlapping (hIn ep) (hOut ep) inp = false /\
    0 <= wrap_i64 (Len inp) <= maxAlloc /\
    readSource wfs (pIn ep) inp = (data, n, ErrNil) /\
    ((n = 0 /\ w = 0 /\ wfs' = wfs) \/
     (n <> 0 /\ exists ct,
        sniffed (hOut ep) inp data n = Some ct /\
        w = wrap_u32 n /\
        wfs' = writeState wfs (pOut ep) (eOut ep)
                 (writeHandle (hOut ep) inp data ct)
                 (writeEntry (entOut ep) inp n))).
Proof.
  unfold CopyFileRange.
  destruct (Z.eqb_spec (Flags inp) 0) as [Hf | _]; [| discriminate]. cbn [negb].
  destruct (GetHandle wfs (FhOut inp)) as [[po ho] |] eqn:Ho; [| discriminate].
  destruct (GetHandle wfs (FhIn inp)) as [[pi hi] |] eqn:Hi; [| discriminate].
  destruct (entryOf wfs ho) as [[eo xo] |] eqn:Heo; [| discriminate].
  destruct (entryOf wfs hi) as [[ei xi] |] eqn:Hei; [| discriminate].
  destruct (IsDirectory xi) eqn:Hdi; [discriminate |].
  destruct (IsDirectory xo) eqn:Hdo; [discriminate |]. cbn [orb].
  destruct (overlapping hi ho inp) eqn:Hov; [discriminate |].
  destruct (makePanics (wrap_i64 (Len inp))) eqn:Hlen; [discriminate |].
  apply makePanics_false in Hlen.
  pose proof (readSource_err wfs pi inp) as Herr.
  destruct (readSource wfs pi inp) as [[data n] err] eqn:Hrd. cbn in Herr.
  intros Hout.
  exists {| pOut := po; hOut := ho; eOut := eo; entOut := xo;
            pIn := pi; hIn := hi; entIn := xi |}, data, n.
  cbn [pOut hOut eOut entOut pIn hIn entIn].
  assert (err = ErrNil) as ->.
  { destruct Herr as [-> | ->]; [reflexivity | discriminate]. }
  split; [constructor; cbn; try assumption; by rewrite Hei |].
  do 3 (split; [assumption || reflexivity |]).
  destruct (Z.eqb_spec n 0) as [Hn | Hn].
  - left. cbn in Hout. injection Hout as <- <-. auto.
  - right. split; [assumption |].
    destruct (sniffed ho inp data n) as [ct |]; [| discriminate].
    cbn in Hout. injection Hout as <- <-. eauto.
Qed.

Lemma sourceRead_validated wfs inp ep data n err :
  Validated wfs inp ep ->
  readSource wfs (pIn ep) inp = (data, n, err) ->
  sourceRead wfs inp = n.
Proof.
  intros Hv Hrd. unfold sourceRead. rewrite (v_in _ _ _ Hv), Hrd. reflexivity.
Qed.

Lemma entryOf_entry wfs (h : FileHandle WP DP) (e : eaddr) (x : Entry) :
  entryOf wfs h = Some (e, x) -> entry h = Some e /\ entries wfs !! e = Some x.
Proof.
  unfold entryOf. destruct (entry h) as [e0 |]; [| discriminate].
  destruct (entries wfs !! e0) as [x0 |] eqn:E; [| discriminate].
  intros [= -> ->]. auto.
Qed.

Lemma GetHandle_lookup wfs (id : FileHandleId) (p : haddr) (h : FileHandle WP DP) :
  GetHandle wfs id = Some (p, h) -> fhmap wfs !! id = Some p /\ handles wfs !! p = Some h.
Proof.
  unfold GetHandle. destruct (fhmap wfs !! id) as [p0 |]; [| discriminate].
  destruct (handles wfs !! p0) as [h0 |] eqn:E; [| discriminate].
  intros [= -> ->]. auto.
Qed.

(** The destination as the request sees it after a write. *)
Lemma GetHandle_after_write wfs inp ep (h' : FileHandle WP DP) (x' : Entry) :
  Validated wfs inp ep ->
  GetHandle (writeState wfs (pOut ep) (eOut ep) h' x') (FhOut inp) = Some (pOut ep, h').
Proof.
  intros Hv.
  destruct (GetHandle_lookup _ _ _ _ (v_out _ _ _ Hv)) as [Hid Hp].
  unfold GetHandle, writeState. cbn [fhmap handles].
  rewrite Hid, lookup_insert_eq. reflexivity.
Qed.

Lemma dest_after_write wfs inp ep (h' : FileHandle WP DP) (x' : Entry) :
  Validated wfs inp ep ->
  entry h' = entry (hOut ep) ->
  let wfs' := writeState wfs (pOut ep) (eOut ep) h' x' in
  destHandle wfs' inp = Some h' /\ destEntry wfs' inp = Some x'.
Proof.
  intros Hv He wfs'.
  destruct (entryOf_entry _ _ _ _ (v_entOut _ _ _ Hv)) as [Hent _].
  unfold destHandle, destEntry, wfs'.
  rewrite (GetHandle_after_write _ _ _ h' x' Hv). split; [reflexivity |].
  unfold entryOf. rewrite He, Hent. unfold writeState. cbn [entries].
  rewrite lookup_insert_eq. reflexivity.
Qed.

(** ** The overlap test *)

(** On ranges of at least one byte that do not run past [2^64], the test of
    line 72 is the intersection of the two closed intervals. *)
Lemma overlapping_exact (hi ho : FileHandle WP DP) inp :
  0 <= OffIn inp -> 0 <= OffOut inp -> 1 <= Len inp ->
  OffIn inp + Len inp <= 2 ^ 64 -> OffOut inp + Len inp <= 2 ^ 64 ->
  overlapping hi ho inp = true <->
  inode hi = inode ho /\ intersect (OffIn inp) (OffOut inp) (Len inp).
Proof.
  intros Hi Ho Hl Hie Hoe. unfold overlapping, offInEnd, offOutEnd, intersect.
  rewrite !wrap_u64_id by lia.
  rewrite !andb_true_iff, Z.eqb_eq, Z.leb_le, Z.geb_le.
  split.
  - intros [[Hn H1] H2]. split; [assumption |].
    exists (Z.max (OffIn inp) (OffOut inp)). lia.
  - intros [Hn [x Hx]]. repeat split; [assumption | lia | lia].
Qed.

(** An empty range read at offset 0: the end offset wraps to [2^64 - 1]
    and the test only compares the object identities. *)
Lemma overlapping_empty_at_zero (hi ho : FileHandle WP DP) inp :
  Len inp = 0 -> OffIn inp = 0 -> 0 <= OffOut inp < 2 ^ 64 ->
  overlapping hi ho inp = (inode hi =? inode ho).
Proof.
  intros Hl Hi Ho. unfold overlapping, offInEnd, offOutEnd. rewrite Hl, Hi.
  replace (wrap_u64 (0 + 0 - 1)) with (2 ^ 64 - 1) by reflexivity.
  pose proof (Z.mod_pos_bound (OffOut inp + 0 - 1) (2 ^ 64) ltac:(lia)) as Hb.
  unfold wrap_u64.
  destruct (inode hi =? inode ho); [| reflexivity]. cbn [andb].
  rewrite (proj2 (Z.leb_le _ _)) by lia.
  rewrite Z.geb_leb, (proj2 (Z.leb_le _ _)) by lia. reflexivity.
Qed.

Lemma intersect_empty (a b : Z) : ~ intersect a b 0.
Proof. intros [x Hx]. lia. Qed.

(** ** The content-type refresh *)

(** Lines 115-116: when bytes were written at an offset up to 512, the
    sniffer is given [data[:min(totalRead, 512) - 1]]. *)
Lemma sniffed_recomputed (h : FileHandle WP DP) inp (data : list byte) (n : Z) :
  0 < wrap_u32 n -> OffOut inp <= 512 ->
  1 <= n -> Z.min n 512 - 1 <= Z.of_nat (length data) ->
  sniffed h inp data n =
    Some (DetectContentType (take (Z.to_nat (Z.min n 512 - 1)) data)).
Proof.
  intros Hw Ho Hn Hl. unfold sniffed.
  rewrite (proj2 (Z.ltb_lt _ _) Hw), (proj2 (Z.leb_le _ _) Ho). cbn [andb].
  destruct (Z.ltb_spec (Z.min n 512 - 1) 0) as [| _]; [lia |].
  destruct (Z.ltb_spec (Z.of_nat (length data)) (Z.min n 512 - 1)) as [| _]; [lia |].
  reflexivity.
Qed.

Lemma sniffed_kept (h : FileHandle WP DP) inp (data : list byte) (n : Z) :
  wrap_u32 n = 0 \/ 512 < OffOut inp ->
  sniffed h inp data n = Some (contentType h).
Proof.
  intros Hc. unfold sniffed.
  destruct (Z.ltb_spec 0 (wrap_u32 n)) as [Hw | _]; [| reflexivity].
  destruct (Z.leb_spec (OffOut inp) 512) as [Ho | _]; [| reflexivity].
  lia.
Qed.

End Paths.

(** ** What the operation guarantees, for any collaborators *)

(** Closes [NoDup] goals over explicit lists of locks. *)
Ltac distinct_locks :=
  repeat (apply NoDup_cons; split;
          [ rewrite ?not_elem_of_cons; repeat split;
            try apply not_elem_of_nil; congruence
          | ]);
  apply NoDup_nil_2.

Section Guarantees.
Context {WP DP : Type} {collab : Collaborators WP DP}.

Implicit Types (wfs : WFS WP DP) (inp : CopyFileRangeIn) (ep : @Endpoints WP DP).

(** C7. A request with a non-zero flags value fails with EINVAL and zero
    bytes; the trace of the invocation is empty (no handle was resolved and
    no lock was taken) and the state is the one before the call. *)
Theorem nonzero_flags_rejected wfs inp :
  Flags inp <> 0 ->
  CopyFileRange wfs inp = {| trace := []; outcome := Returned 0 EINVAL wfs |}.
Proof.
  intros Hf. unfold CopyFileRange.
  destruct (Z.eqb_spec (Flags inp) 0) as [E | _]; [contradiction | reflexivity].
Qed.

(** C3. When the chunk read of the source reports an error other than
    end-of-data, a validated, non-overlapping request whose buffer [make]
    allocates (a length between 0 and [maxAlloc], so that the read is
    reached) returns EIO with zero bytes and the state after the call is the
    state before it: nothing of the destination (entry size, cached content,
    dirty flag, dirty pages, pattern monitor, content type) has changed. *)
Theorem chunk_error_leaves_state wfs inp ep d n :
  Validated wfs inp ep ->
  overlapping (hIn ep) (hOut ep) inp = false ->
  0 <= wrap_i64 (Len inp) <= maxAlloc ->
  readFromChunks wfs (pIn ep) (freshBuffer inp) (wrap_i64 (OffIn inp)) = (d, n, ErrOther) ->
  outcome (CopyFileRange wfs inp) = Returned 0 EIO wfs.
Proof.
  intros Hv Hov Hlen Hrd.
  rewrite (outcome_validated _ _ _ Hv), Hov.
  rewrite (proj2 (makePanics_false _) Hlen).
  rewrite (readSource_chunk_error _ _ _ _ _ Hrd). reflexivity.
Qed.

(** C6. When the merged source read of a validated, non-overlapping request
    whose buffer [make] allocates (a length between 0 and [maxAlloc], so
    that the read is reached) yields zero bytes, the operation returns OK
    with zero bytes written and the state after the call is the state before
    it. *)
Theorem empty_read_leaves_state wfs inp ep data err :
  Validated wfs inp ep ->
  overlapping (hIn ep) (hOut ep) inp = false ->
  0 <= wrap_i64 (Len inp) <= maxAlloc ->
  readSource wfs (pIn ep) inp = (data, 0, err) ->
  err <> ErrOther ->
  outcome (CopyFileRange wfs inp) = Returned 0 OK wfs.
Proof.
  intros Hv Hov Hlen Hrd Herr.
  rewrite (outcome_validated _ _ _ Hv), Hov.
  rewrite (proj2 (makePanics_false _) Hlen).
  rewrite Hrd. destruct err; [reflexivity | reflexivity | contradiction].
Qed.

(** C4, amended. After a successful copy that returned a positive count,
    and provided the size before the call, the destination offset and the
    end of the written range lie below [2^63] and the number of bytes read
    fits the 32-bit count, the size of the destination entry is the maximum
    of the size before and [OffOut + written]; it has not decreased, and the
    destination handle is marked as having dirty metadata. *)
Theorem size_after_copy wfs inp w wfs' (e : Entry) :
  outcome (CopyFileRange wfs inp) = Returned w OK wfs' ->
  0 < w ->
  destEntry wfs inp = Some e ->
  0 <= FileSize e < 2 ^ 63 ->
  0 <= OffOut inp ->
  OffOut inp + sourceRead wfs inp < 2 ^ 63 ->
  0 <= sourceRead wfs inp < 2 ^ 32 ->
  exists (e' : Entry) (h' : FileHandle WP DP),
    destEntry wfs' inp = Some e' /\
    destHandle wfs' inp = Some h' /\
    FileSize e' = Z.max (FileSize e) (OffOut inp + w) /\
    FileSize e <= FileSize e' /\
    dirtyMetadata h' = true.
Proof.
  intros Hout Hw He Hsz Hoff Hend Hn.
  destruct (outcome_OK_inv _ _ _ _ Hout)
    as (ep & data & n & Hv & _ & _ & Hrd & [(_ & -> & _) | (Hn0 & ct & _ & -> & ->)]);
    [lia |].
  rewrite (sourceRead_validated _ _ _ _ _ _ Hv Hrd) in Hend, Hn.
  assert (e = entOut ep) as ->.
  { unfold destEntry in He. rewrite (v_out _ _ _ Hv), (v_entOut _ _ _ Hv) in He.
    cbn in He. congruence. }
  destruct (dest_after_write wfs inp ep (writeHandle (hOut ep) inp data ct)
              (writeEntry (entOut ep) inp n) Hv eq_refl) as [Hh' He'].
  eexists _, _. split; [exact He' |]. split; [exact Hh' |].
  rewrite wrap_u32_id by lia. cbn [writeEntry FileSize writeHandle dirtyMetadata].
  rewrite (wrap_i64_id (OffOut inp)) by lia.
  rewrite (wrap_i64_id (OffOut inp + n)) by lia.
  rewrite (wrap_i64_id (FileSize (entOut ep))) by lia.
  rewrite wrap_u64_id by lia.
  repeat split; lia.
Qed.

(** C10. With flags zero and both handles resolved: a destination handle
    without entry makes the operation return ENOENT, whatever the source
    entry is; a source handle without entry, the destination having one,
    makes the directory test of line 64 dereference nil, and the operation
    panics instead of returning an error. *)
Theorem only_destination_entry_is_guarded wfs inp (po pi : haddr) (ho hi : FileHandle WP DP) :
  Flags inp = 0 ->
  GetHandle wfs (FhOut inp) = Some (po, ho) ->
  GetHandle wfs (FhIn inp) = Some (pi, hi) ->
  (entryOf wfs ho = None -> outcome (CopyFileRange wfs inp) = Returned 0 ENOENT wfs) /\
  (entryOf wfs ho <> None -> entryOf wfs hi = None ->
   outcome (CopyFileRange wfs inp) = Panicked).
Proof.
  intros Hf Ho Hi. unfold CopyFileRange. rewrite Hf, Ho, Hi. cbn [Z.eqb negb].
  split.
  - intros ->. reflexivity.
  - intros Hne ->. destruct (entryOf wfs ho) as [[eo xo] |]; [reflexivity | contradiction].
Qed.

(** Projections of a trace of the shape that every invocation has. *)
Lemma acquired_shape (gets : list FileHandleId) (acq : list LockId) :
  acquired (map EvGetHandle gets ++ map EvLock acq ++ map EvUnlock (reverse acq)) = acq.
Proof.
  unfold acquired. generalize (reverse acq) as rel.
  induction gets as [| g gets IH]; intros rel; [| apply IH].
  cbn [map app]. induction acq as [| l acq IH]; cbn.
  - induction rel as [| l rel IH]; [reflexivity | exact IH].
  - f_equal. exact IH.
Qed.

Lemma released_shape (gets : list FileHandleId) (acq : list LockId) :
  released (map EvGetHandle gets ++ map EvLock acq ++ map EvUnlock (reverse acq))
    = reverse acq.
Proof.
  unfold released. generalize (reverse acq) as rel.
  induction gets as [| g gets IH]; intros rel; [| apply IH].
  cbn [map app]. induction acq as [| l acq IH]; cbn.
  - induction rel as [| l rel IH]; [reflexivity | cbn; f_equal; exact IH].
  - exact IH.
Qed.

(** The shape of the trace of an invocation, path by path. *)
Lemma trace_shape wfs inp :
  exists (gets : list FileHandleId) (acq : list LockId),
    trace (CopyFileRange wfs inp) =
      map EvGetHandle gets ++ map EvLock acq ++ map EvUnlock (reverse acq) /\
    NoDup acq /\
    match Flags inp =? 0, GetHandle wfs (FhOut inp), GetHandle wfs (FhIn inp) with
    | true, Some (po, ho), Some (pi, hi) =>
        exists src rl,
          acq = [HandleLock po; EntryLock po] ++ src ++ rl /\
          src = match entryOf wfs ho with
                | None => []
                | Some _ => if fh hi =? fh ho then [] else [HandleLock pi; EntryLock pi]
                end /\
          (rl = [] \/ rl = [RangeLock pi (wrap_i64 (OffIn inp)) (wrap_i64 (Len inp))]) /\
          (pi = po -> src = [])
    | _, _, _ => acq = []
    end.
Proof.
  unfold CopyFileRange.
  destruct (Flags inp =? 0); cbn [negb];
    [| exists [], []; repeat split; constructor].
  destruct (GetHandle wfs (FhOut inp)) as [[po ho] |] eqn:Ho;
    [| exists [FhOut inp], []; repeat split; constructor].
  destruct (GetHandle wfs (FhIn inp)) as [[pi hi] |] eqn:Hi;
    [| exists [FhOut inp; FhIn inp], []; repeat split; constructor].
  assert ((fh hi =? fh ho) = false -> pi <> po) as Hdiff.
  { intros E ->.
    destruct (GetHandle_lookup _ _ _ _ Ho) as [_ H1].
    destruct (GetHandle_lookup _ _ _ _ Hi) as [_ H2].
    rewrite H1 in H2. injection H2 as ->. rewrite Z.eqb_refl in E. discriminate. }
  pose (rng := RangeLock pi (wrap_i64 (OffIn inp)) (wrap_i64 (Len inp))).
  assert (NoDup [HandleLock po; EntryLock po]) as N2.
  { unfold rng. distinct_locks. }
  assert (NoDup [HandleLock po; EntryLock po; rng]) as N3.
  { unfold rng. distinct_locks. }
  assert ((fh hi =? fh ho) = false ->
          NoDup [HandleLock po; EntryLock po; HandleLock pi; EntryLock pi]) as N4.
  { intros E. specialize (Hdiff E). unfold rng.
    distinct_locks. }
  assert ((fh hi =? fh ho) = false ->
          NoDup [HandleLock po; EntryLock po; HandleLock pi; EntryLock pi; rng]) as N5.
  { intros E. specialize (Hdiff E). unfold rng.
    distinct_locks. }
  destruct (entryOf wfs ho) as [[eo xo] |] eqn:Heo.
  2:{ exists [FhOut inp; FhIn inp], [HandleLock po; EntryLock po].
      split; [reflexivity |]. split; [exact N2 |].
      exists [], []. repeat split; auto. }
  destruct (fh hi =? fh ho) eqn:Hfh; cbn [negb];
    (destruct (entryOf wfs hi) as [[ei xi] |];
     [ destruct (IsDirectory xi || IsDirectory xo);
       [| destruct (overlapping hi ho inp);
          [| destruct (makePanics (wrap_i64 (Len inp)));
             [| destruct (readSource wfs pi inp) as [[data n] err];
                destruct err; try destruct (n =? 0);
                try destruct (sniffed ho inp data n) ] ] ]
     | ]).
  all: first
    [ (* same stored id, no range lock *)
      solve [ exists [FhOut inp; FhIn inp], [HandleLock po; EntryLock po];
              split; [reflexivity |]; split; [exact N2 |];
              exists [], []; repeat split; auto ]
    | solve [ exists [FhOut inp; FhIn inp], [HandleLock po; EntryLock po; rng];
              split; [reflexivity |]; split; [exact N3 |];
              exists [], [rng]; repeat split; auto ]
    | solve [ exists [FhOut inp; FhIn inp],
                [HandleLock po; EntryLock po; HandleLock pi; EntryLock pi];
              split; [reflexivity |]; split; [exact (N4 eq_refl) |];
              exists [HandleLock pi; EntryLock pi], []; repeat split; auto;
              intros E; destruct (Hdiff eq_refl E) ]
    | solve [ exists [FhOut inp; FhIn inp],
                [HandleLock po; EntryLock po; HandleLock pi; EntryLock pi; rng];
              split; [reflexivity |]; split; [exact (N5 eq_refl) |];
              exists [HandleLock pi; EntryLock pi], [rng]; repeat split; auto;
              intros E; destruct (Hdiff eq_refl E) ] ].
Qed.

(** The locks of an invocation, with the test of line 56 as it is written:
    a comparison of the ids stored in the two handle objects. *)
Lemma lock_discipline wfs inp :
  exists (gets : list FileHandleId) (acq : list LockId),
    trace (CopyFileRange wfs inp) =
      map EvGetHandle gets ++ map EvLock acq ++ map EvUnlock (reverse acq) /\
    acquired (trace (CopyFileRange wfs inp)) = acq /\
    released (trace (CopyFileRange wfs inp)) = reverse acq /\
    NoDup acq /\
    match Flags inp =? 0, GetHandle wfs (FhOut inp), GetHandle wfs (FhIn inp) with
    | true, Some (po, ho), Some (pi, hi) =>
        exists src rl,
          acq = [HandleLock po; EntryLock po] ++ src ++ rl /\
          src = match entryOf wfs ho with
                | None => []
                | Some _ => if fh hi =? fh ho then [] else [HandleLock pi; EntryLock pi]
                end /\
          (rl = [] \/ rl = [RangeLock pi (wrap_i64 (OffIn inp)) (wrap_i64 (Len inp))]) /\
          (pi = po -> src = [])
    | _, _, _ => acq = []
    end.
Proof.
  destruct (trace_shape wfs inp) as (gets & acq & Ht & Hnd & Hacq).
  exists gets, acq. rewrite Ht, acquired_shape, released_shape. auto.
Qed.

(** Under a registry keyed by handle id, the test of line 56 is the test
    that source and destination are the same handle object. *)
Lemma same_fh_same_object wfs inp (po pi : haddr) (ho hi : FileHandle WP DP) :
  Keyed wfs (FhOut inp) -> Keyed wfs (FhIn inp) ->
  GetHandle wfs (FhOut inp) = Some (po, ho) ->
  GetHandle wfs (FhIn inp) = Some (pi, hi) ->
  (fh hi =? fh ho) = Pos.eqb pi po.
Proof.
  intros Ko Ki Ho Hi.
  destruct (Pos.eqb_spec pi po) as [-> | Hne].
  - destruct (GetHandle_lookup _ _ _ _ Ho) as [_ H1].
    destruct (GetHandle_lookup _ _ _ _ Hi) as [_ H2].
    rewrite H1 in H2. injection H2 as ->. apply Z.eqb_refl.
  - apply Z.eqb_neq. intros Heq.
    rewrite (Ko _ _ Ho), (Ki _ _ Hi) in Heq.
    rewrite Heq, Ho in Hi. injection Hi as -> _. contradiction.
Qed.

(** C9. The registry being a lookup by handle id, every invocation runs as
    follows. Its trace is a sequence of handle resolutions, then lock
    acquisitions, then the releases of exactly those locks in reverse order,
    on every exit path; no lock is taken twice. Once both handles are
    resolved the destination's handle lock and entry lock come first. If
    the destination has an entry, the source's handle lock and entry lock
    follow exactly when the source is a different handle object than the
    destination; when they are the same object it is not locked a second
    time: on such a registry the test of line 56 decides exactly whether the
    two handle references are the same. Only the read lock on the source
    range comes after. *)
Theorem lock_order_by_identity wfs inp :
  Keyed wfs (FhOut inp) ->
  Keyed wfs (FhIn inp) ->
  exists (gets : list FileHandleId) (acq : list LockId),
    trace (CopyFileRange wfs inp) =
      map EvGetHandle gets ++ map EvLock acq ++ map EvUnlock (reverse acq) /\
    acquired (trace (CopyFileRange wfs inp)) = acq /\
    released (trace (CopyFileRange wfs inp)) = reverse acq /\
    NoDup acq /\
    match Flags inp =? 0, GetHandle wfs (FhOut inp), GetHandle wfs (FhIn inp) with
    | true, Some (po, ho), Some (pi, hi) =>
        exists src rl,
          acq = [HandleLock po; EntryLock po] ++ src ++ rl /\
          src = match entryOf wfs ho with
                | None => []
                | Some _ => if Pos.eqb pi po then [] else [HandleLock pi; EntryLock pi]
                end /\
          (rl = [] \/ rl = [RangeLock pi (wrap_i64 (OffIn inp)) (wrap_i64 (Len inp))])
    | _, _, _ => acq = []
    end.
Proof.
  intros Ko Ki.
  destruct (lock_discipline wfs inp) as (gets & acq & Ht & Ha & Hr & Hnd & Hacq).
  exists gets, acq. do 4 (split; [assumption |]).
  destruct (Flags inp =? 0); [| exact Hacq].
  destruct (GetHandle wfs (FhOut inp)) as [[po ho] |] eqn:Ho; [| exact Hacq].
  destruct (GetHandle wfs (FhIn inp)) as [[pi hi] |] eqn:Hi; [| exact Hacq].
  destruct Hacq as (src & rl & Hshape & Hsrc & Hrl & _).
  exists src, rl. split; [exact Hshape |]. split; [| exact Hrl].
  rewrite <- (same_fh_same_object wfs inp po pi ho hi Ko Ki Ho Hi). exact Hsrc.
Qed.

End Guarantees.

(** ** The concrete store: the merged read, byte by byte *)

Module StoreFacts.
Import Store.

Lemma overlayPage_length (off : Z) (pg : Page) (buf : list byte) (m : Z) :
  length (overlayPage off pg (buf, m)).1 = length buf.
Proof.
  unfold overlayPage, pageStop.
  destruct (Z.ltb_spec (Z.max off (pageOffset pg))
              (Z.min (off + Z.of_nat (length buf))
                     (pageOffset pg + Z.of_nat (length (pageData pg))))) as [Hlt | Hge];
    [| reflexivity].
  cbn [fst]. rewrite !length_app, !length_take, !length_drop. lia.
Qed.

Lemma overlayPage_lookup (off : Z) (pg : Page) (buf : list byte) (m : Z) (i : nat) :
  (i < length buf)%nat ->
  (overlayPage off pg (buf, m)).1 !! i =
    if covers pg (off + Z.of_nat i)
    then pageData pg !! Z.to_nat (off + Z.of_nat i - pageOffset pg)
    else buf !! i.
Proof.
  intros Hi. unfold overlayPage, covers, pageStop.
  set (start := Z.max off (pageOffset pg)).
  set (stop := Z.min (off + Z.of_nat (length buf))
                     (pageOffset pg + Z.of_nat (length (pageData pg)))).
  destruct (Z.ltb_spec start stop) as [Hlt | Hge]; cbn [fst].
  - destruct (Z.leb_spec (pageOffset pg) (off + Z.of_nat i)) as [H1 | H1];
      [destruct (Z.ltb_spec (off + Z.of_nat i)
                   (pageOffset pg + Z.of_nat (length (pageData pg)))) as [H2 | H2] |];
      cbn [andb].
    + (* inside the record *)
      rewrite lookup_app_r by (rewrite length_take; lia).
      rewrite length_take.
      rewrite lookup_app_l by (rewrite length_take, length_drop; lia).
      rewrite lookup_take_lt by lia.
      rewrite lookup_drop. f_equal. lia.
    + (* past its end *)
      rewrite lookup_app_r by (rewrite length_take; lia).
      rewrite lookup_app_r by (rewrite !length_take, length_drop; lia).
      rewrite lookup_drop, !length_take, length_drop. f_equal. lia.
    + (* before its start *)
      rewrite lookup_app_l by (rewrite length_take; lia).
      apply lookup_take_lt. lia.
  - destruct (Z.leb_spec (pageOffset pg) (off + Z.of_nat i)) as [H1 | H1];
      [destruct (Z.ltb_spec (off + Z.of_nat i)
                   (pageOffset pg + Z.of_nat (length (pageData pg)))) as [H2 | H2] |];
      cbn [andb]; try reflexivity.
    lia.
Qed.

Lemma overlayPage_stop (off : Z) (pg : Page) (buf : list byte) (m : Z) :
  off <= m <= off + Z.of_nat (length buf) ->
  off <= (overlayPage off pg (buf, m)).2 <= off + Z.of_nat (length buf).
Proof.
  intros Hm. unfold overlayPage.
  destruct (Z.ltb_spec (Z.max off (pageOffset pg))
              (Z.min (off + Z.of_nat (length buf)) (pageStop pg))) as [Hlt | Hge];
    cbn [snd]; lia.
Qed.

Lemma covers_lookup (pg : Page) (pos : Z) :
  covers pg pos = true -> is_Some (pageData pg !! Z.to_nat (pos - pageOffset pg)).
Proof.
  unfold covers, pageStop. rewrite andb_true_iff, Z.leb_le, Z.ltb_lt. intros [H1 H2].
  apply lookup_lt_is_Some. lia.
Qed.

Lemma readDirtyDataAt_cons (pg : Page) (dp : DirtyPageBuffer) (buf : list byte) (off : Z) :
  readDirtyDataAt (pg :: dp) buf off = overlayPage off pg (readDirtyDataAt dp buf off).
Proof. reflexivity. Qed.

Lemma readDirtyDataAt_length (dp : DirtyPageBuffer) (buf : list byte) (off : Z) :
  length (readDirtyDataAt dp buf off).1 = length buf.
Proof.
  induction dp as [| pg dp IH]; [reflexivity |].
  rewrite readDirtyDataAt_cons.
  destruct (readDirtyDataAt dp buf off) as [b m]. rewrite overlayPage_length. exact IH.
Qed.

Lemma readDirtyDataAt_stop (dp : DirtyPageBuffer) (buf : list byte) (off : Z) :
  off <= (readDirtyDataAt dp buf off).2 <= off + Z.of_nat (length buf).
Proof.
  induction dp as [| pg dp IH]; [cbn; lia |].
  rewrite readDirtyDataAt_cons.
  pose proof (readDirtyDataAt_length dp buf off) as Hl.
  destruct (readDirtyDataAt dp buf off) as [b m]. cbn [fst snd] in *.
  rewrite <- Hl. apply overlayPage_stop. lia.
Qed.

(** The overlay read returns the newest dirty byte where there is one and
    lets the buffer through elsewhere. *)
Lemma readDirtyDataAt_lookup (dp : DirtyPageBuffer) (buf : list byte) (off : Z) (i : nat) :
  (i < length buf)%nat ->
  (readDirtyDataAt dp buf off).1 !! i =
    match dirtyByte dp (off + Z.of_nat i) with
    | Some b => Some b
    | None => buf !! i
    end.
Proof.
  intros Hi. induction dp as [| pg dp IH]; [reflexivity |].
  rewrite readDirtyDataAt_cons.
  pose proof (readDirtyDataAt_length dp buf off) as Hl.
  destruct (readDirtyDataAt dp buf off) as [b m]. cbn [fst] in *.
  rewrite overlayPage_lookup by lia. cbn [dirtyByte].
  destruct (covers pg (off + Z.of_nat i)) eqn:Hc; [| exact IH].
  destruct (covers_lookup _ _ Hc) as [x ->]. reflexivity.
Qed.

Lemma readAt_length (cs : ChunkStore) (obj : Z) (buf : list byte) (off : Z) :
  length (readAt cs obj buf off).1.1 = length buf.
Proof.
  unfold readAt. destruct (cs !! obj) as [[bs |] |]; try reflexivity.
  destruct (off <? 0); [reflexivity |]. cbn [fst].
  rewrite length_app, length_take, !length_drop. lia.
Qed.

Lemma readAt_count (cs : ChunkStore) (obj : Z) (buf : list byte) (off : Z) :
  0 <= (readAt cs obj buf off).1.2 <= Z.of_nat (length buf).
Proof.
  unfold readAt. destruct (cs !! obj) as [[bs |] |]; cbn [fst snd]; try lia.
  destruct (off <? 0); cbn [fst snd]; lia.
Qed.

(** A chunk read that did not fail returns the committed byte where there
    is one and lets the buffer through elsewhere. *)
Lemma readAt_lookup (cs : ChunkStore) (obj : Z) (buf : list byte) (off : Z) (i : nat) :
  (readAt cs obj buf off).2 <> ErrOther ->
  (i < length buf)%nat ->
  (readAt cs obj buf off).1.1 !! i =
    match committedByte cs obj (off + Z.of_nat i) with
    | Some b => Some b
    | None => buf !! i
    end.
Proof.
  unfold readAt, committedByte.
  destruct (cs !! obj) as [[bs |] |]; cbn [fst snd]; [| congruence | reflexivity].
  destruct (Z.ltb_spec off 0) as [Hneg | Hoff]; cbn [fst snd]; [congruence |].
  intros _ Hi.
  destruct (Z.ltb_spec (off + Z.of_nat i) 0) as [| _]; [lia |].
  set (n := Nat.min (length buf) (length (drop (Z.to_nat off) bs))).
  assert (n = Nat.min (length buf) (length bs - Z.to_nat off)) as Hn
    by (unfold n; rewrite length_drop; reflexivity).
  destruct (bs !! Z.to_nat (off + Z.of_nat i)) as [b |] eqn:Hb.
  - apply lookup_lt_Some in Hb as Hlt.
    rewrite lookup_app_l by (rewrite length_take, !length_drop; lia).
    rewrite lookup_take_lt by lia.
    rewrite lookup_drop, <- Hb. f_equal. lia.
  - apply lookup_ge_None_1 in Hb.
    rewrite lookup_app_r by (rewrite length_take, !length_drop; lia).
    rewrite lookup_drop, length_take, !length_drop. f_equal. lia.
Qed.

End StoreFacts.

(** ** The concrete store: what a copy transfers *)

Module CopyFacts.
Import Store StoreFacts Scenario.

(** The buffer that [readSource] hands back holds the merged view of the
    source: the newest dirty byte, else the committed byte, else zero. *)
Lemma readSource_merged (cs : ChunkStore) (sniff : list byte -> string) (wfs : WFS)
    (p : haddr) (h : FileHandle) (inp : CopyFileRangeIn) (data : list byte) (n : Z) :
  handles wfs !! p = Some h ->
  @readSource _ _ (collaborators cs sniff) wfs p inp = (data, n, ErrNil) ->
  length data = Z.to_nat (wrap_i64 (Len inp)) /\
  0 <= n <= Z.of_nat (length data) /\
  forall i : nat, (i < length data)%nat ->
    data !! i =
      Some (default x00
              (mergedByte cs (inode h) (pages (dirtyPages h))
                 (wrap_i64 (OffIn inp) + Z.of_nat i))).
Proof.
  intros Hh. unfold readSource.
  cbn [readFromChunks readFromDirtyPages collaborators]. unfold handleAt. rewrite Hh.
  set (off := wrap_i64 (OffIn inp)).
  set (buf0 := replicate (Z.to_nat (wrap_i64 (Len inp))) x00).
  pose proof (readAt_length cs (inode h) buf0 off) as Hl1.
  pose proof (readAt_count cs (inode h) buf0 off) as Hc1.
  pose proof (readAt_lookup cs (inode h) buf0 off) as Hk1.
  destruct (readAt cs (inode h) buf0 off) as [[d1 n0] err]. cbn [fst snd] in *.
  assert (length buf0 = Z.to_nat (wrap_i64 (Len inp))) as Hl0
    by apply length_replicate.
  assert (err <> ErrOther ->
          (let '(d2, m) := readDirtyDataAt (pages (dirtyPages h)) d1 off in
           (d2, Z.max (wrap_i64 (m - off)) n0, ErrNil)) = (data, n, ErrNil) ->
          length data = Z.to_nat (wrap_i64 (Len inp)) /\
          0 <= n <= Z.of_nat (length data) /\
          forall i : nat, (i < length data)%nat ->
            data !! i =
              Some (default x00
                      (mergedByte cs (inode h) (pages (dirtyPages h))
                         (off + Z.of_nat i)))) as Hmain.
  { intros Herr.
    pose proof (readDirtyDataAt_length (pages (dirtyPages h)) d1 off) as Hl2.
    pose proof (readDirtyDataAt_stop (pages (dirtyPages h)) d1 off) as Hs2.
    pose proof (readDirtyDataAt_lookup (pages (dirtyPages h)) d1 off) as Hk2.
    destruct (readDirtyDataAt (pages (dirtyPages h)) d1 off) as [d2 m].
    cbn [fst snd] in *. intros [= <- <-].
    pose proof (wrap_i64_bounds (Len inp)) as Hb.
    rewrite (wrap_i64_id (m - off)) by lia.
    split; [lia |]. split; [lia |].
    intros i Hi. rewrite Hk2 by lia. unfold mergedByte.
    destruct (dirtyByte (pages (dirtyPages h)) (off + Z.of_nat i)) as [b |];
      [reflexivity |].
    rewrite Hk1 by (assumption || lia).
    destruct (committedByte cs (inode h) (off + Z.of_nat i)) as [b |];
      [reflexivity |].
    unfold buf0. rewrite lookup_replicate_2 by lia. reflexivity. }
  destruct err; [apply Hmain; discriminate | apply Hmain; discriminate | discriminate].
Qed.

(** Whatever the read produced, the record that a successful copy inserts
    into the destination's dirty pages is the whole buffer of line 88, of
    the requested length. *)
Lemma written_page_is_whole_buffer (cs : ChunkStore) (sniff : list byte -> string)
    (wfs : WFS) (inp : CopyFileRangeIn) (w : Z) (wfs' : WFS) :
  outcome (copyFileRange cs sniff wfs inp) = Returned w OK wfs' ->
  w <> 0 ->
  exists (h h' : FileHandle) (data : list byte),
    destHandle wfs inp = Some h /\
    destHandle wfs' inp = Some h' /\
    pages (dirtyPages h') =
      {| pageOffset := wrap_i64 (OffOut inp); pageData := data |} :: pages (dirtyPages h) /\
    length data = Z.to_nat (wrap_i64 (Len inp)).
Proof.
  intros Hout Hw. unfold copyFileRange in Hout.
  destruct (outcome_OK_inv _ _ _ _ Hout)
    as (ep & data & n & Hv & _ & _ & Hrd & [(_ & -> & _) | (Hn0 & ct & _ & -> & ->)]);
    [contradiction |].
  destruct (GetHandle_lookup _ _ _ _ (v_in _ _ _ Hv)) as [_ Hp].
  destruct (readSource_merged _ _ _ _ _ _ _ _ Hp Hrd) as (Hlen & _ & _).
  exists (hOut ep),
    (writeHandle (collab := collaborators cs sniff) (hOut ep) inp data ct), data.
  unfold destHandle.
  rewrite (GetHandle_after_write _ _ _ _ _ Hv), (v_out _ _ _ Hv).
  repeat split; assumption.
Qed.

(** C1. On the store of the design document: after a successful copy every
    transferred byte of the destination is the byte of the merged view of
    the source before the call (the newest dirty byte, else the committed
    byte, else zero); the end-of-data of the chunk read is no error. In the
    scenario of ten committed digits with the dirty record "XY" at offsets
    3-4, the source reads "012XY56789", the copy of [0,10) to a fresh
    destination returns 10 and leaves a destination of size 10 with that
    content; asking for twelve bytes reaches end-of-data and still returns
    the ten. *)
Theorem copy_transfers_merged_view :
  (forall (cs : ChunkStore) (sniff : list byte -> string) (wfs : WFS)
          (inp : CopyFileRangeIn) (w : Z) (wfs' : WFS),
      outcome (copyFileRange cs sniff wfs inp) = Returned w OK wfs' ->
      forall i : Z, 0 <= i < w ->
        view cs wfs' (FhOut inp) (wrap_i64 (OffOut inp) + i) =
          Some (default x00 (view cs wfs (FhIn inp) (wrap_i64 (OffIn inp) + i)))) /\
  (forall sniff : list byte -> string,
      let r := copyFileRange csDigits sniff wfsDigits reqDigits in
      readHandle csDigits wfsDigits 10 0 10 = bytes "012XY56789" /\
      result r = Some (10, OK) /\
      (s ← after r; FileSize <$> entryAt s 20) = Some 10 /\
      (s ← after r; Some (readHandle csDigits s 20 0 10)) = Some (bytes "012XY56789") /\
      (readAt csDigits 1 (replicate 12 x00) 0).2 = ErrEOF /\
      result (copyFileRange csDigits sniff wfsDigits reqDigitsLong) = Some (10, OK)).
Proof.
  split.
  - intros cs sniff wfs inp w wfs' Hout i Hi. unfold copyFileRange in Hout.
    destruct (outcome_OK_inv _ _ _ _ Hout)
      as (ep & data & n & Hv & _ & _ & Hrd & [(_ & -> & _) | (Hn0 & ct & _ & -> & ->)]);
      [lia |].
    destruct (GetHandle_lookup _ _ _ _ (v_in _ _ _ Hv)) as [_ Hp].
    destruct (readSource_merged _ _ _ _ _ _ _ _ Hp Hrd) as (Hlen & Hn & Hbytes).
    assert (0 <= n) as Hn1 by lia.
    pose proof (wrap_u32_le n Hn1) as Hle.
    unfold view.
    rewrite (GetHandle_after_write _ _ _ _ _ Hv), (v_in _ _ _ Hv).
    cbn [writeHandle writePages inode dirtyPages pages AddPage collaborators addPage].
    unfold mergedByte at 1, addPage. cbn [dirtyByte]. unfold covers, pageStop.
    cbn [pageOffset pageData].
    rewrite (proj2 (Z.leb_le _ _)) by lia.
    rewrite (proj2 (Z.ltb_lt _ _)) by lia. cbn [andb].
    replace (wrap_i64 (OffOut inp) + i - wrap_i64 (OffOut inp)) with i by lia.
    rewrite (Hbytes (Z.to_nat i)) by lia.
    rewrite Z2Nat.id by lia. reflexivity.
  - intros sniff r. unfold r. vm_compute. repeat split.
Qed.

End CopyFacts.

(** ** The operation on concrete states *)

Module Runs.
Import Store Scenario.

(** C2. An empty range at source offset 0 of an object, copied within that
    object: the two closed intervals are empty and have no point in common,
    yet the end offsets of line 69-70 wrap around and the request is
    rejected with EINVAL (the state is left as it was). *)
Theorem empty_range_at_zero_rejected :
  let r := copyFileRange csDigits sniffNothing wfsDigits reqEmptySame in
  result r = Some (0, EINVAL) /\
  after r = Some wfsDigits /\
  offInEnd reqEmptySame = 2 ^ 64 - 1 /\
  ~ intersect (OffIn reqEmptySame) (OffOut reqEmptySame) (Len reqEmptySame).
Proof.
  split; [vm_compute; reflexivity |].
  split; [vm_compute; reflexivity |].
  split; [vm_compute; reflexivity |].
  intros [x Hx]. cbn in Hx. lia.
Qed.

(** C5. A short read: five bytes are asked of a source that has three. The
    copy returns 3, but the record inserted into the destination's dirty
    pages is the whole five-byte buffer, so two zero bytes shadow the bytes
    3 and 4 that the destination had. *)
Theorem short_read_inserts_whole_buffer (sniff : list byte -> string) :
  let r := copyFileRange csShort sniff wfsShort reqShort in
  result r = Some (3, OK) /\
  (s ← after r; h ← handles s !! 2%positive; Some (pages (dirtyPages h))) =
    Some [ {| pageOffset := 0; pageData := bytes "abc" ++ [x00; x00] |} ] /\
  readHandle csShort wfsShort 20 0 10 = bytes "0123456789" /\
  (s ← after r; Some (readHandle csShort s 20 0 10)) =
    Some (bytes "abc" ++ [x00; x00] ++ bytes "56789").
Proof. vm_compute. repeat split. Qed.

(** C8. Five bytes copied to offset 0: all five arrive in the destination,
    but the sniffer is given the first four only ([data[:min(5, 512) - 1]]);
    with one byte copied it is given none. At offset 600 the content type
    is left as it was. *)
Theorem sniffer_misses_last_byte (sniff : list byte -> string) :
  let r := copyFileRange csPdf sniff wfsPdf reqPdf in
  result r = Some (5, OK) /\
  (s ← after r; Some (readHandle csPdf s 20 0 5)) = Some (bytes "%PDF-") /\
  (s ← after r; contentType <$> destHandle s reqPdf) = Some (sniff (bytes "%PDF")) /\
  (s ← after (copyFileRange csPdf sniffEcho wfsPdf reqPdf);
   contentType <$> destHandle s reqPdf) = Some "%PDF"%string /\
  (s ← after (copyFileRange csDigits sniff wfsDigits reqOneByte);
   contentType <$> destHandle s reqOneByte) = Some (sniff []) /\
  (s ← after (copyFileRange csPdf sniff wfsPdf reqPdfFar);
   contentType <$> destHandle s reqPdfFar) = contentType <$> destHandle wfsPdf reqPdfFar.
Proof. vm_compute. repeat split. Qed.

(** C4, as stated, fails: a destination entry of size [2^63] shrinks to 1
    when one byte is copied to its offset 0. *)
Lemma huge_size_shrinks :
  let r := copyFileRange csDigits sniffNothing wfsHuge reqOneByte in
  result r = Some (1, OK) /\
  FileSize <$> entryAt wfsHuge 20 = Some (2 ^ 63) /\
  (s ← after r; FileSize <$> entryAt s 20) = Some 1.
Proof. vm_compute. repeat split. Qed.

(** *** Instances of the general statements *)

Lemma validated_digits : @Validated _ _ wfsDigits reqDigits epDigits.
Proof. constructor; vm_compute; reflexivity. Defined.

Lemma copy_transfers_merged_view_witness :
  view csDigits wfsDigitsCopied (FhOut reqDigits) (wrap_i64 (OffOut reqDigits) + 3) =
    Some (default x00 (view csDigits wfsDigits (FhIn reqDigits)
                         (wrap_i64 (OffIn reqDigits) + 3))).
Proof.
  apply (proj1 CopyFacts.copy_transfers_merged_view
           csDigits sniffNothing wfsDigits reqDigits 10 wfsDigitsCopied).
  - vm_compute. reflexivity.
  - lia.
Defined.

Lemma nonzero_flags_rejected_witness :
  copyFileRange csDigits sniffNothing wfsDigits reqFlagged =
    {| trace := []; outcome := Returned 0 EINVAL wfsDigits |}.
Proof.
  apply (nonzero_flags_rejected (collab := collaborators csDigits sniffNothing)).
  vm_compute. discriminate.
Defined.

Lemma chunk_error_leaves_state_witness :
  outcome (copyFileRange csDown sniffNothing wfsDigits reqDigits) =
    Returned 0 EIO wfsDigits.
Proof.
  apply (chunk_error_leaves_state (collab := collaborators csDown sniffNothing)
           wfsDigits reqDigits epDigits (freshBuffer reqDigits) 0).
  - exact validated_digits.
  - vm_compute. reflexivity.
  - vm_compute. split; discriminate.
  - vm_compute. reflexivity.
Defined.

Lemma empty_read_leaves_state_witness :
  outcome (copyFileRange csDigits sniffNothing wfsDigits reqFromFresh) =
    Returned 0 OK wfsDigits.
Proof.
  apply (empty_read_leaves_state (collab := collaborators csDigits sniffNothing)
           wfsDigits reqFromFresh epFromFresh (freshBuffer reqFromFresh) ErrNil).
  - constructor; vm_compute; reflexivity.
  - vm_compute. reflexivity.
  - vm_compute. split; discriminate.
  - vm_compute. reflexivity.
  - discriminate.
Defined.

Lemma size_after_copy_witness :
  exists (e' : Entry) (h' : FileHandle),
    destEntry wfsDigitsCopied reqDigits = Some e' /\
    destHandle wfsDigitsCopied reqDigits = Some h' /\
    FileSize e' = Z.max (FileSize (fileEntry 0)) (OffOut reqDigits + 10) /\
    FileSize (fileEntry 0) <= FileSize e' /\
    dirtyMetadata h' = true.
Proof.
  apply (size_after_copy (collab := collaborators csDigits sniffNothing)
           wfsDigits reqDigits 10 wfsDigitsCopied (fileEntry 0)).
  - vm_compute. reflexivity.
  - reflexivity.
  - vm_compute. reflexivity.
  - vm_compute. split; [discriminate | reflexivity].
  - vm_compute. discriminate.
  - vm_compute. reflexivity.
  - vm_compute. split; [discriminate | reflexivity].
Defined.

Lemma lock_order_by_identity_witness :
  exists (gets : list FileHandleId) (acq : list LockId),
    trace (copyFileRange csDigits sniffNothing wfsDigits reqDigits) =
      map EvGetHandle gets ++ map EvLock acq ++ map EvUnlock (reverse acq) /\
    acquired (trace (copyFileRange csDigits sniffNothing wfsDigits reqDigits)) = acq /\
    released (trace (copyFileRange csDigits sniffNothing wfsDigits reqDigits))
      = reverse acq /\
    NoDup acq /\
    match Flags reqDigits =? 0,
          GetHandle wfsDigits (FhOut reqDigits), GetHandle wfsDigits (FhIn reqDigits) with
    | true, Some (po, ho), Some (pi, hi) =>
        exists src rl,
          acq = [HandleLock po; EntryLock po] ++ src ++ rl /\
          src = match entryOf wfsDigits ho with
                | None => []
                | Some _ => if Pos.eqb pi po then [] else [HandleLock pi; EntryLock pi]
                end /\
          (rl = [] \/
           rl = [RangeLock pi (wrap_i64 (OffIn reqDigits)) (wrap_i64 (Len reqDigits))])
    | _, _, _ => acq = []
    end.
Proof.
  apply (lock_order_by_identity (collab := collaborators csDigits sniffNothing)
           wfsDigits reqDigits).
  - intros p h H. vm_compute in H. injection H as <- <-. reflexivity.
  - intros p h H. vm_compute in H. injection H as <- <-. reflexivity.
Defined.

Lemma only_destination_entry_is_guarded_witness :
  outcome (copyFileRange csDigits sniffNothing wfsNoSourceEntry reqDigits) = Panicked.
Proof.
  refine (proj2 (only_destination_entry_is_guarded
                   (collab := collaborators csDigits sniffNothing)
                   wfsNoSourceEntry reqDigits 2%positive 1%positive
                   hFresh (openHandle 10 1 None []) _ _ _) _ _).
  - reflexivity.
  - vm_compute. reflexivity.
  - vm_compute. reflexivity.
  - vm_compute. discriminate.
  - vm_compute. reflexivity.
Defined.

End Runs.

(** * Further properties of [CopyFileRange] *)

(** Case analysis along the branches of the function. *)
Ltac walk :=
  repeat match goal with
         | |- context [if ?b then _ else _] => destruct b eqn:?
         | |- context [match ?x with _ => _ end] => destruct x eqn:?
         end.

Section Coverage.
Context {WP DP : Type} {collab : Collaborators WP DP}.

Implicit Types (wfs : WFS WP DP) (inp : CopyFileRangeIn) (ep : @Endpoints WP DP).

(** X1. With flags zero, a destination id or a source id that the registry
    does not resolve makes the operation return EBADF with zero bytes and
    the state unchanged; no lock is taken. The destination is looked up
    first: when it does not resolve, the source id is not looked up. *)
Theorem unresolved_handle_rejected wfs inp :
  Flags inp = 0 ->
  GetHandle wfs (FhOut inp) = None \/ GetHandle wfs (FhIn inp) = None ->
  outcome (CopyFileRange wfs inp) = Returned 0 EBADF wfs /\
  acquired (trace (CopyFileRange wfs inp)) = [] /\
  trace (CopyFileRange wfs inp) =
    match GetHandle wfs (FhOut inp) with
    | None => [EvGetHandle (FhOut inp)]
    | Some _ => [EvGetHandle (FhOut inp); EvGetHandle (FhIn inp)]
    end.
Proof.
  intros Hf Hnone. unfold CopyFileRange. rewrite Hf. cbn [Z.eqb negb].
  destruct (GetHandle wfs (FhOut inp)) as [[po ho] |]; [| repeat split].
  destruct Hnone as [Hn | Hn]; [discriminate |]. rewrite Hn. repeat split.
Qed.

(** X2. With flags zero, both handles resolved and both entries present, a
    directory at either end makes the operation return EISDIR with zero
    bytes and the state unchanged, whatever the offsets and the length
    are. *)
Theorem directory_rejected wfs inp (po pi : haddr) (ho hi : FileHandle WP DP)
    (eo ei : eaddr) (xo xi : Entry) :
  Flags inp = 0 ->
  GetHandle wfs (FhOut inp) = Some (po, ho) ->
  GetHandle wfs (FhIn inp) = Some (pi, hi) ->
  entryOf wfs ho = Some (eo, xo) ->
  entryOf wfs hi = Some (ei, xi) ->
  IsDirectory xi = true \/ IsDirectory xo = true ->
  outcome (CopyFileRange wfs inp) = Returned 0 EISDIR wfs.
Proof.
  intros Hf Ho Hi Heo Hei Hdir. unfold CopyFileRange.
  rewrite Hf, Ho, Hi, Heo, Hei. cbn [Z.eqb negb].
  assert (IsDirectory xi || IsDirectory xo = true) as ->
    by (apply orb_true_iff; exact Hdir).
  reflexivity.
Qed.

(** X3. Every return with a status other than OK carries a count of zero
    and leaves the state exactly as it was before the call. *)
Theorem failure_leaves_state wfs inp w (c : Status) wfs' :
  outcome (CopyFileRange wfs inp) = Returned w c wfs' ->
  c <> OK ->
  w = 0 /\ wfs' = wfs.
Proof.
  unfold CopyFileRange. walk; cbn [outcome leave];
    intros H Hc; try discriminate; injection H as <- <- <-;
    first [ split; reflexivity | contradiction ].
Qed.

(** X4. For a validated request of at least one byte whose two ranges end
    at or below [2^64], the operation returns EINVAL exactly when the two
    handles have the same inode and the closed intervals
    [[OffIn, OffIn+Len-1]] and [[OffOut, OffOut+Len-1]] intersect. *)
Theorem overlap_rejected_iff wfs inp ep :
  Validated wfs inp ep ->
  0 <= OffIn inp -> 0 <= OffOut inp -> 1 <= Len inp ->
  OffIn inp + Len inp <= 2 ^ 64 -> OffOut inp + Len inp <= 2 ^ 64 ->
  outcome (CopyFileRange wfs inp) = Returned 0 EINVAL wfs <->
  inode (hIn ep) = inode (hOut ep) /\ intersect (OffIn inp) (OffOut inp) (Len inp).
Proof.
  intros Hv Hi Ho Hl Hie Hoe.
  rewrite <- (overlapping_exact (hIn ep) (hOut ep) inp Hi Ho Hl Hie Hoe).
  rewrite (outcome_validated _ _ _ Hv).
  destruct (overlapping (hIn ep) (hOut ep) inp); [tauto |].
  split; [| discriminate].
  walk; discriminate.
Qed.

(** X5. A successful copy changes at most two objects: the destination
    handle object and the entry it points to. The registry, every other
    handle object and every other entry are as before. *)
Theorem copy_frame wfs inp w wfs' (po : haddr) (ho : FileHandle WP DP)
    (eo : eaddr) (xo : Entry) :
  outcome (CopyFileRange wfs inp) = Returned w OK wfs' ->
  GetHandle wfs (FhOut inp) = Some (po, ho) ->
  entryOf wfs ho = Some (eo, xo) ->
  fhmap wfs' = fhmap wfs /\
  (forall p : haddr, p <> po -> handles wfs' !! p = handles wfs !! p) /\
  (forall e : eaddr, e <> eo -> entries wfs' !! e = entries wfs !! e).
Proof.
  intros Hout Ho Heo.
  destruct (outcome_OK_inv _ _ _ _ Hout)
    as (ep & data & n & Hv & _ & _ & _ & [(_ & _ & ->) | (_ & ct & _ & _ & ->)]);
    [auto |].
  rewrite (v_out _ _ _ Hv) in Ho. injection Ho as <- <-.
  rewrite (v_entOut _ _ _ Hv) in Heo. injection Heo as <- <-.
  unfold writeState. cbn [fhmap handles entries].
  split; [reflexivity |].
  split; intros q Hq; apply lookup_insert_ne; congruence.
Qed.

(** X6. After a successful copy with a non-zero count, the destination
    entry has no cached content and is still not a directory; the
    destination handle keeps its id, inode and entry pointer; its pattern
    monitor has been fed [(int64(OffOut), int(Len))], and the page was
    added at [int64(OffOut)] with the sequential hint read from the monitor
    after that update. *)
Theorem destination_after_write wfs inp w wfs' (h : FileHandle WP DP) (x : Entry) :
  outcome (CopyFileRange wfs inp) = Returned w OK wfs' ->
  w <> 0 ->
  destHandle wfs inp = Some h ->
  destEntry wfs inp = Some x ->
  exists (h' : FileHandle WP DP) (x' : Entry) (data : list byte),
    destHandle wfs' inp = Some h' /\
    destEntry wfs' inp = Some x' /\
    Content x' = None /\
    IsDirectory x' = false /\
    fh h' = fh h /\ inode h' = inode h /\ entry h' = entry h /\
    writerPattern (dirtyPages h') =
      MonitorWriteAt (writerPattern (dirtyPages h))
        (wrap_i64 (OffOut inp)) (wrap_i64 (Len inp)) /\
    pages (dirtyPages h') =
      AddPage (pages (dirtyPages h)) (wrap_i64 (OffOut inp)) data
        (IsSequentialMode (writerPattern (dirtyPages h'))).
Proof.
  intros Hout Hw Hh Hx.
  destruct (outcome_OK_inv _ _ _ _ Hout)
    as (ep & data & n & Hv & _ & _ & _ & [(_ & -> & _) | (_ & ct & _ & -> & ->)]);
    [contradiction |].
  unfold destHandle in Hh. rewrite (v_out _ _ _ Hv) in Hh. injection Hh as <-.
  unfold destEntry in Hx. rewrite (v_out _ _ _ Hv), (v_entOut _ _ _ Hv) in Hx.
  injection Hx as <-.
  destruct (dest_after_write wfs inp ep (writeHandle (hOut ep) inp data ct)
              (writeEntry (entOut ep) inp n) Hv eq_refl) as [Hh' Hx'].
  exists (writeHandle (hOut ep) inp data ct), (writeEntry (entOut ep) inp n), data.
  split; [exact Hh' |]. split; [exact Hx' |].
  cbn. rewrite (v_fileOut _ _ _ Hv). repeat split.
Qed.

(** X7. A successful copy to a destination offset above 512 leaves the
    cached content type of the destination handle as it was. *)
Theorem content_type_kept wfs inp w wfs' (h : FileHandle WP DP) :
  outcome (CopyFileRange wfs inp) = Returned w OK wfs' ->
  512 < OffOut inp ->
  destHandle wfs inp = Some h ->
  contentType <$> destHandle wfs' inp = Some (contentType h).
Proof.
  intros Hout Hoff Hh.
  destruct (outcome_OK_inv _ _ _ _ Hout)
    as (ep & data & n & Hv & _ & _ & _ & [(_ & _ & ->) | (_ & ct & Hct & _ & ->)]).
  - rewrite Hh. reflexivity.
  - unfold destHandle in Hh. rewrite (v_out _ _ _ Hv) in Hh. injection Hh as <-.
    destruct (dest_after_write wfs inp ep (writeHandle (hOut ep) inp data ct)
                (writeEntry (entOut ep) inp n) Hv eq_refl) as [-> _].
    rewrite (sniffed_kept (hOut ep) inp data n (or_intror Hoff)) in Hct.
    injection Hct as <-. reflexivity.
Qed.

(** X8. A validated, non-overlapping request whose length is [2^63] or
    more panics: [int(in.Len)] is negative and [make] refuses it. *)
Theorem oversized_length_panics wfs inp ep :
  Validated wfs inp ep ->
  overlapping (hIn ep) (hOut ep) inp = false ->
  2 ^ 63 <= Len inp < 2 ^ 64 ->
  outcome (CopyFileRange wfs inp) = Panicked.
Proof.
  intros Hv Hov Hlen. rewrite (outcome_validated _ _ _ Hv), Hov.
  assert (wrap_i64 (Len inp) = Len inp - 2 ^ 64) as ->.
  { unfold wrap_i64.
    replace (Len inp + 2 ^ 63) with ((Len inp - 2 ^ 63) + 1 * 2 ^ 64) by lia.
    rewrite Z.mod_add by lia. rewrite Z.mod_small by lia. lia. }
  rewrite makePanics_negative by lia. reflexivity.
Qed.

(** X14. A validated, non-overlapping request whose length is above
    [maxAlloc] (2^48) and below [2^63] panics: [make] refuses the length
    before anything is read. *)
Theorem too_large_length_panics wfs inp ep :
  Validated wfs inp ep ->
  overlapping (hIn ep) (hOut ep) inp = false ->
  maxAlloc < Len inp < 2 ^ 63 ->
  outcome (CopyFileRange wfs inp) = Panicked.
Proof.
  intros Hv Hov Hlen. rewrite (outcome_validated _ _ _ Hv), Hov.
  assert (0 < maxAlloc) by reflexivity.
  rewrite (wrap_i64_id (Len inp)) by lia.
  unfold makePanics. rewrite (proj2 (Z.ltb_lt _ _) (proj1 Hlen)), orb_true_r.
  reflexivity.
Qed.

(** X9. Each status is returned for its own reason only: OK and EIO only
    for a validated, non-overlapping request (EIO only when the chunk read
    failed); EINVAL only for non-zero flags or a validated request that the
    overlap test rejects; EBADF only when a handle does not resolve; ENOENT
    only when the destination handle has no entry; EISDIR only when an
    endpoint is a directory. *)
Theorem status_reasons wfs inp w (c : Status) wfs' :
  outcome (CopyFileRange wfs inp) = Returned w c wfs' ->
  match c with
  | OK =>
      exists ep, Validated wfs inp ep /\ overlapping (hIn ep) (hOut ep) inp = false
  | EIO =>
      exists ep d n,
        Validated wfs inp ep /\ overlapping (hIn ep) (hOut ep) inp = false /\
        readFromChunks wfs (pIn ep) (freshBuffer inp) (wrap_i64 (OffIn inp))
          = (d, n, ErrOther)
  | EINVAL =>
      Flags inp <> 0 \/
      exists ep, Validated wfs inp ep /\ overlapping (hIn ep) (hOut ep) inp = true
  | EBADF =>
      Flags inp = 0 /\
      (GetHandle wfs (FhOut inp) = None \/ GetHandle wfs (FhIn inp) = None)
  | ENOENT =>
      Flags inp = 0 /\
      exists po ho, GetHandle wfs (FhOut inp) = Some (po, ho) /\
                    is_Some (GetHandle wfs (FhIn inp)) /\
                    entryOf wfs ho = None
  | EISDIR =>
      Flags inp = 0 /\
      exists po ho pi hi eo xo ei xi,
        GetHandle wfs (FhOut inp) = Some (po, ho) /\
        GetHandle wfs (FhIn inp) = Some (pi, hi) /\
        entryOf wfs ho = Some (eo, xo) /\
        entryOf wfs hi = Some (ei, xi) /\
        (IsDirectory xi = true \/ IsDirectory xo = true)
  end.
Proof.
  unfold CopyFileRange.
  destruct (Z.eqb_spec (Flags inp) 0) as [Hf | Hf]; cbn [negb];
    [| intros [= <- <- <-]; left; exact Hf].
  destruct (GetHandle wfs (FhOut inp)) as [[po ho] |] eqn:Ho;
    [| intros [= <- <- <-]; auto].
  destruct (GetHandle wfs (FhIn inp)) as [[pi hi] |] eqn:Hi;
    [| intros [= <- <- <-]; auto].
  destruct (entryOf wfs ho) as [[eo xo] |] eqn:Heo;
    [| intros [= <- <- <-]; split; [exact Hf |]; exists po, ho; eauto].
  destruct (entryOf wfs hi) as [[ei xi] |] eqn:Hei; [| discriminate].
  destruct (IsDirectory xi) eqn:Hdi;
    [intros [= <- <- <-]; split; [exact Hf |];
     exists po, ho, pi, hi, eo, xo, ei, xi; auto 6 |].
  destruct (IsDirectory xo) eqn:Hdo;
    [intros [= <- <- <-]; split; [exact Hf |];
     exists po, ho, pi, hi, eo, xo, ei, xi; auto 6 |].
  cbn [orb].
  assert (Validated wfs inp
            {| pOut := po; hOut := ho; eOut := eo; entOut := xo;
               pIn := pi; hIn := hi; entIn := xi |}) as Hv.
  { constructor; cbn; try assumption. rewrite Hei. reflexivity. }
  destruct (overlapping hi ho inp) eqn:Hov;
    [intros [= <- <- <-]; right; eexists; split; [exact Hv | exact Hov] |].
  destruct (makePanics (wrap_i64 (Len inp))); [discriminate |].
  unfold readSource. fold (freshBuffer inp).
  destruct (readFromChunks wfs pi (freshBuffer inp) (wrap_i64 (OffIn inp)))
    as [[d n0] err] eqn:Hrd.
  destruct err.
  3:{ intros [= <- <- <-]. eexists _, d, n0. split; [exact Hv |]. split; [exact Hov |].
      exact Hrd. }
  all: destruct (readFromDirtyPages wfs pi d (wrap_i64 (OffIn inp))) as [d2 m];
    (destruct (Z.eqb (Z.max _ _) 0); [| destruct (sniffed _ _ _ _); [| discriminate]]);
    intros [= <- <- <-]; (eexists; split; [exact Hv | exact Hov]).
Qed.

(** X10. When the chunk read reports a count between 0 and the buffer
    length and the dirty-page read a stop offset between 0 and the end of
    the requested window, the count that the operation returns lies between
    0 and the requested length. *)
Theorem written_within_length wfs inp ep (d1 d2 : list byte) (n0 m : Z) (e : ReadErr)
    w (c : Status) wfs' :
  Validated wfs inp ep ->
  readFromChunks wfs (pIn ep) (freshBuffer inp) (wrap_i64 (OffIn inp)) = (d1, n0, e) ->
  readFromDirtyPages wfs (pIn ep) d1 (wrap_i64 (OffIn inp)) = (d2, m) ->
  0 <= n0 <= wrap_i64 (Len inp) ->
  0 <= m <= wrap_i64 (OffIn inp) + wrap_i64 (Len inp) ->
  outcome (CopyFileRange wfs inp) = Returned w c wfs' ->
  0 <= w <= wrap_i64 (Len inp).
Proof.
  intros Hv Hrd Hdp Hn Hm Hout.
  rewrite (outcome_validated _ _ _ Hv) in Hout.
  pose proof (wrap_i64_bounds (OffIn inp)) as Hoff.
  pose proof (wrap_i64_bounds (Len inp)) as Hlen.
  destruct (overlapping (hIn ep) (hOut ep) inp); [injection Hout as <- _ _; lia |].
  destruct (makePanics (wrap_i64 (Len inp))); [discriminate |].
  unfold readSource in Hout. fold (freshBuffer inp) in Hout. rewrite Hrd in Hout.
  assert (forall t, t = Z.max (wrap_i64 (m - wrap_i64 (OffIn inp))) n0 ->
                    0 <= wrap_u32 t <= wrap_i64 (Len inp)) as Hcount.
  { intros t ->. rewrite (wrap_i64_id (m - wrap_i64 (OffIn inp))) by lia.
    pose proof (wrap_u32_le (Z.max (m - wrap_i64 (OffIn inp)) n0) ltac:(lia)).
    pose proof (Z.mod_pos_bound (Z.max (m - wrap_i64 (OffIn inp)) n0) (2 ^ 32) ltac:(lia)).
    unfold wrap_u32 in *. lia. }
  destruct e; [rewrite Hdp in Hout | rewrite Hdp in Hout | injection Hout as <- _ _; lia];
    (destruct (Z.max (wrap_i64 (m - wrap_i64 (OffIn inp))) n0 =? 0);
     [injection Hout as <- _ _; lia |]);
    (destruct (sniffed _ _ _ _); [| discriminate]);
    injection Hout as <- _ _; apply Hcount; reflexivity.
Qed.

(** X11. A validated request whose buffer [make] allocates (a length
    between 0 and [maxAlloc]) does not panic when the two reads keep the
    buffer length and report a count and a stop offset within the requested
    window: the slice handed to the sniffer at line 116 is then within the
    buffer. *)
Theorem transfer_returns wfs inp ep (d1 d2 : list byte) (n0 m : Z) (e : ReadErr) :
  Validated wfs inp ep ->
  0 <= wrap_i64 (Len inp) <= maxAlloc ->
  readFromChunks wfs (pIn ep) (freshBuffer inp) (wrap_i64 (OffIn inp)) = (d1, n0, e) ->
  readFromDirtyPages wfs (pIn ep) d1 (wrap_i64 (OffIn inp)) = (d2, m) ->
  length d2 = length (freshBuffer inp) ->
  0 <= n0 <= wrap_i64 (Len inp) ->
  0 <= m <= wrap_i64 (OffIn inp) + wrap_i64 (Len inp) ->
  exists w (c : Status) wfs', outcome (CopyFileRange wfs inp) = Returned w c wfs'.
Proof.
  intros Hv Hlen Hrd Hdp Hl Hn Hm.
  rewrite (outcome_validated _ _ _ Hv).
  pose proof (wrap_i64_bounds (OffIn inp)) as Hoff.
  pose proof (wrap_i64_bounds (Len inp)) as Hb.
  destruct (overlapping (hIn ep) (hOut ep) inp); [eauto |].
  rewrite (proj2 (makePanics_false _) Hlen).
  unfold readSource. fold (freshBuffer inp). rewrite Hrd.
  destruct e; [rewrite Hdp | rewrite Hdp | eauto];
    rewrite (wrap_i64_id (m - wrap_i64 (OffIn inp))) by lia;
    (destruct (Z.eqb_spec (Z.max (m - wrap_i64 (OffIn inp)) n0) 0) as [| Hne];
     [eauto |]);
    (assert (sniffed (hOut ep) inp d2 (Z.max (m - wrap_i64 (OffIn inp)) n0) <> None)
       as Hs;
     [ unfold sniffed, freshBuffer in *; rewrite length_replicate in Hl;
       destruct (_ && _); [| discriminate];
       destruct (Z.ltb_spec (Z.min (Z.max (m - wrap_i64 (OffIn inp)) n0) 512 - 1) 0);
       [lia |];
       destruct (Z.ltb_spec (Z.of_nat (length d2))
                   (Z.min (Z.max (m - wrap_i64 (OffIn inp)) n0) 512 - 1));
       [lia | discriminate]
     | destruct (sniffed _ _ _ _); [eauto | contradiction] ]).
Qed.

(** X12. A validated request that passes the overlap test always runs with
    the same sequence of events, whatever the read then gives: the two
    lookups, the destination's handle lock and entry lock, the source's two
    locks when its stored id differs, the read lock on the source range, and
    then the releases, the range lock first and the destination's handle
    lock last. *)
Theorem trace_of_transfer wfs inp ep :
  Validated wfs inp ep ->
  overlapping (hIn ep) (hOut ep) inp = false ->
  let rng := RangeLock (pIn ep) (wrap_i64 (OffIn inp)) (wrap_i64 (Len inp)) in
  let distinct := negb (fh (hIn ep) =? fh (hOut ep)) in
  trace (CopyFileRange wfs inp) =
    [EvGetHandle (FhOut inp); EvGetHandle (FhIn inp);
     EvLock (HandleLock (pOut ep)); EvLock (EntryLock (pOut ep))]
    ++ (if distinct then [EvLock (HandleLock (pIn ep)); EvLock (EntryLock (pIn ep))] else [])
    ++ [EvLock rng; EvUnlock rng]
    ++ (if distinct then [EvUnlock (EntryLock (pIn ep)); EvUnlock (HandleLock (pIn ep))] else [])
    ++ [EvUnlock (EntryLock (pOut ep)); EvUnlock (HandleLock (pOut ep))].
Proof.
  intros [Hf Ho Hi Heo Hei Hdi Hdo] Hov rng distinct. unfold CopyFileRange.
  rewrite Hf, Ho, Hi, Heo. cbn [Z.eqb negb].
  destruct (entryOf wfs (hIn ep)) as [[ei xi] |]; [| discriminate].
  cbn in Hei. injection Hei as ->. rewrite Hdi, Hdo, Hov. cbn [orb].
  subst distinct rng.
  destruct (fh (hIn ep) =? fh (hOut ep)); cbn [negb]; walk; reflexivity.
Qed.

(** X13. The entry is shared: after a successful copy with a non-zero
    count, every other handle object that points to the destination's entry
    is itself unchanged and sees the entry as the destination does, with the
    new size and without cached content. *)
Theorem shared_entry_sees_write wfs inp w wfs' (po p : haddr) (ho h : FileHandle WP DP)
    (eo : eaddr) (xo : Entry) :
  outcome (CopyFileRange wfs inp) = Returned w OK wfs' ->
  w <> 0 ->
  GetHandle wfs (FhOut inp) = Some (po, ho) ->
  entryOf wfs ho = Some (eo, xo) ->
  handles wfs !! p = Some h ->
  p <> po ->
  entry h = Some eo ->
  exists x' : Entry,
    handles wfs' !! p = Some h /\
    entryOf wfs' h = Some (eo, x') /\
    destEntry wfs' inp = Some x' /\
    Content x' = None /\
    FileSize x' =
      wrap_u64 (Z.max (wrap_i64 (wrap_i64 (OffOut inp) + sourceRead wfs inp))
                      (wrap_i64 (FileSize xo))).
Proof.
  intros Hout Hw Ho Heo Hp Hne He.
  destruct (outcome_OK_inv _ _ _ _ Hout)
    as (ep & data & n & Hv & _ & _ & Hrd & [(_ & -> & _) | (_ & ct & _ & -> & ->)]);
    [contradiction |].
  rewrite (sourceRead_validated _ _ _ _ _ _ Hv Hrd).
  rewrite (v_out _ _ _ Hv) in Ho. injection Ho as <- <-.
  rewrite (v_entOut _ _ _ Hv) in Heo. injection Heo as <- <-.
  destruct (dest_after_write wfs inp ep (writeHandle (hOut ep) inp data ct)
              (writeEntry (entOut ep) inp n) Hv eq_refl) as [_ Hx'].
  exists (writeEntry (entOut ep) inp n).
  split; [unfold writeState; cbn [handles]; rewrite lookup_insert_ne by congruence;
          exact Hp |].
  split; [unfold entryOf, writeState; cbn [entries]; rewrite He, lookup_insert_eq;
          reflexivity |].
  split; [exact Hx' |]. split; reflexivity.
Qed.

End Coverage.

(** ** Instances of the further properties *)

Module CoverageRuns.
Import Store Scenario.

Lemma unresolved_handle_rejected_witness :
  outcome (copyFileRange csDigits sniffNothing wfsDigits reqNoDestination)
    = Returned 0 EBADF wfsDigits /\
  acquired (trace (copyFileRange csDigits sniffNothing wfsDigits reqNoDestination)) = [] /\
  trace (copyFileRange csDigits sniffNothing wfsDigits reqNoDestination) =
    match GetHandle wfsDigits (FhOut reqNoDestination) with
    | None => [EvGetHandle (FhOut reqNoDestination)]
    | Some _ => [EvGetHandle (FhOut reqNoDestination); EvGetHandle (FhIn reqNoDestination)]
    end.
Proof.
  apply (unresolved_handle_rejected (collab := collaborators csDigits sniffNothing)
           wfsDigits reqNoDestination).
  - reflexivity.
  - left. vm_compute. reflexivity.
Defined.

Lemma directory_rejected_witness :
  outcome (copyFileRange csDigits sniffNothing wfsDirectory reqDigits)
    = Returned 0 EISDIR wfsDirectory.
Proof.
  apply (directory_rejected (collab := collaborators csDigits sniffNothing)
           wfsDirectory reqDigits 2%positive 1%positive hFresh hDigits
           2%positive 1%positive
           {| IsDirectory := true; Content := None; FileSize := 0 |} (fileEntry 10)).
  - reflexivity.
  - vm_compute. reflexivity.
  - vm_compute. reflexivity.
  - vm_compute. reflexivity.
  - vm_compute. reflexivity.
  - right. reflexivity.
Defined.

Lemma failure_leaves_state_witness : 0 = 0 /\ wfsDigits = wfsDigits.
Proof.
  apply (failure_leaves_state (collab := collaborators csDown sniffNothing)
           wfsDigits reqDigits 0 EIO wfsDigits).
  - vm_compute. reflexivity.
  - discriminate.
Defined.

Lemma validated_overlap : @Validated _ _ wfsDigits reqOverlap epSame.
Proof. constructor; vm_compute; reflexivity. Defined.

Lemma overlap_rejected_iff_witness :
  outcome (copyFileRange csDigits sniffNothing wfsDigits reqOverlap)
    = Returned 0 EINVAL wfsDigits.
Proof.
  apply (proj2 (overlap_rejected_iff (collab := collaborators csDigits sniffNothing)
                  wfsDigits reqOverlap epSame validated_overlap
                  ltac:(vm_compute; discriminate) ltac:(vm_compute; discriminate)
                  ltac:(vm_compute; discriminate) ltac:(vm_compute; discriminate)
                  ltac:(vm_compute; discriminate))).
  split; [reflexivity |]. exists 5. cbn. lia.
Defined.

Lemma copy_frame_witness :
  fhmap wfsDigitsCopied = fhmap wfsDigits /\
  (forall p : haddr, p <> 2%positive -> handles wfsDigitsCopied !! p = handles wfsDigits !! p) /\
  (forall e : eaddr, e <> 2%positive -> entries wfsDigitsCopied !! e = entries wfsDigits !! e).
Proof.
  apply (copy_frame (collab := collaborators csDigits sniffNothing)
           wfsDigits reqDigits 10 wfsDigitsCopied 2%positive hFresh 2%positive (fileEntry 0)).
  - vm_compute. reflexivity.
  - vm_compute. reflexivity.
  - vm_compute. reflexivity.
Defined.

Lemma destination_after_write_witness :
  exists (h' : FileHandle) (x' : Entry) (data : list byte),
    destHandle wfsDigitsCopied reqDigits = Some h' /\
    destEntry wfsDigitsCopied reqDigits = Some x' /\
    Content x' = None /\
    IsDirectory x' = false /\
    fh h' = fh hFresh /\ inode h' = inode hFresh /\ entry h' = entry hFresh /\
    writerPattern (dirtyPages h') =
      monitorWriteAt (writerPattern (dirtyPages hFresh))
        (wrap_i64 (OffOut reqDigits)) (wrap_i64 (Len reqDigits)) /\
    pages (dirtyPages h') =
      addPage (pages (dirtyPages hFresh)) (wrap_i64 (OffOut reqDigits)) data
        (isSequentialMode (writerPattern (dirtyPages h'))).
Proof.
  apply (destination_after_write (collab := collaborators csDigits sniffNothing)
           wfsDigits reqDigits 10 wfsDigitsCopied hFresh (fileEntry 0)).
  - vm_compute. reflexivity.
  - discriminate.
  - vm_compute. reflexivity.
  - vm_compute. reflexivity.
Defined.

Lemma content_type_kept_witness :
  contentType <$> destHandle wfsPdfFarCopied reqPdfFar
    = Some (contentType (openHandle 20 2 (Some 2%positive) [])).
Proof.
  apply (content_type_kept (collab := collaborators csPdf sniffNothing)
           wfsPdf reqPdfFar 5 wfsPdfFarCopied).
  - vm_compute. reflexivity.
  - reflexivity.
  - vm_compute. reflexivity.
Defined.

Lemma validated_huge_length : @Validated _ _ wfsDigits reqHugeLength epDigits.
Proof. constructor; vm_compute; reflexivity. Defined.

Lemma oversized_length_panics_witness :
  outcome (copyFileRange csDigits sniffNothing wfsDigits reqHugeLength) = Panicked.
Proof.
  apply (oversized_length_panics (collab := collaborators csDigits sniffNothing)
           wfsDigits reqHugeLength epDigits validated_huge_length).
  - vm_compute. reflexivity.
  - vm_compute. split; [discriminate | reflexivity].
Defined.

Lemma validated_too_large : @Validated _ _ wfsDigits reqTooLarge epDigits.
Proof. constructor; vm_compute; reflexivity. Defined.

Lemma too_large_length_panics_witness :
  outcome (copyFileRange csDigits sniffNothing wfsDigits reqTooLarge) = Panicked.
Proof.
  apply (too_large_length_panics (collab := collaborators csDigits sniffNothing)
           wfsDigits reqTooLarge epDigits validated_too_large).
  - vm_compute. reflexivity.
  - vm_compute. split; reflexivity.
Defined.

Lemma status_reasons_witness :
  exists ep d n,
    @Validated _ _ wfsDigits reqDigits ep /\
    overlapping (hIn ep) (hOut ep) reqDigits = false /\
    readFromChunks (Collaborators := collaborators csDown sniffNothing)
      wfsDigits (pIn ep) (freshBuffer reqDigits) (wrap_i64 (OffIn reqDigits))
      = (d, n, ErrOther).
Proof.
  apply (status_reasons (collab := collaborators csDown sniffNothing)
           wfsDigits reqDigits 0 EIO wfsDigits).
  vm_compute. reflexivity.
Defined.

Lemma validated_digits_long : @Validated _ _ wfsDigits reqDigitsLong epDigits.
Proof. constructor; vm_compute; reflexivity. Defined.

Lemma written_within_length_witness : 0 <= 10 <= wrap_i64 (Len reqDigitsLong).
Proof.
  apply (written_within_length (collab := collaborators csDigits sniffNothing)
           wfsDigits reqDigitsLong epDigits
           (bytes "0123456789" ++ [x00; x00]) (bytes "012XY56789" ++ [x00; x00])
           10 5 ErrEOF 10 OK wfsDigitsLongCopied validated_digits_long).
  - vm_compute. reflexivity.
  - vm_compute. reflexivity.
  - vm_compute. split; discriminate.
  - vm_compute. split; discriminate.
  - vm_compute. reflexivity.
Defined.

Lemma transfer_returns_witness :
  exists w (c : Status) wfs',
    outcome (copyFileRange csDigits sniffNothing wfsDigits reqDigitsLong)
      = Returned w c wfs'.
Proof.
  apply (transfer_returns (collab := collaborators csDigits sniffNothing)
           wfsDigits reqDigitsLong epDigits
           (bytes "0123456789" ++ [x00; x00]) (bytes "012XY56789" ++ [x00; x00])
           10 5 ErrEOF validated_digits_long).
  - vm_compute. split; discriminate.
  - vm_compute. reflexivity.
  - vm_compute. reflexivity.
  - reflexivity.
  - vm_compute. split; discriminate.
  - vm_compute. split; discriminate.
Defined.

Lemma trace_of_transfer_witness :
  trace (copyFileRange csDigits sniffNothing wfsDigits reqDigits) =
    [EvGetHandle 20; EvGetHandle 10;
     EvLock (HandleLock 2%positive); EvLock (EntryLock 2%positive);
     EvLock (HandleLock 1%positive); EvLock (EntryLock 1%positive);
     EvLock (RangeLock 1%positive 0 10); EvUnlock (RangeLock 1%positive 0 10);
     EvUnlock (EntryLock 1%positive); EvUnlock (HandleLock 1%positive);
     EvUnlock (EntryLock 2%positive); EvUnlock (HandleLock 2%positive)].
Proof.
  apply (trace_of_transfer (collab := collaborators csDigits sniffNothing)
           wfsDigits reqDigits epDigits Runs.validated_digits).
  vm_compute. reflexivity.
Defined.

Lemma shared_entry_sees_write_witness :
  exists x' : Entry,
    handles wfsSharedCopied !! 3%positive = Some hSharing /\
    entryOf wfsSharedCopied hSharing = Some (2%positive, x') /\
    destEntry wfsSharedCopied reqDigits = Some x' /\
    Content x' = None /\
    FileSize x' =
      wrap_u64 (Z.max (wrap_i64 (wrap_i64 (OffOut reqDigits)
                                 + sourceRead (collab := collaborators csDigits sniffNothing)
                                     wfsShared reqDigits))
                      (wrap_i64 (FileSize (fileEntry 0)))).
Proof.
  apply (shared_entry_sees_write (collab := collaborators csDigits sniffNothing)
           wfsShared reqDigits 10 wfsSharedCopied 2%positive 3%positive hFresh hSharing
           2%positive (fileEntry 0)).
  - vm_compute. reflexivity.
  - discriminate.
  - vm_compute. reflexivity.
  - vm_compute. reflexivity.
  - vm_compute. reflexivity.
  - discriminate.
  - reflexivity.
Defined.

End CoverageRuns.
